(** * The context builder of the BBNJ question-answering bot

    A shallow embedding of [DocumentStringBuilder] and [chunksToText]
    from [gradioserver.py]: the class that groups retrieved text chunks by
    document and by header, keeps a running token count against a budget,
    and prints the grouped chunks as the text block sent to the language
    model.

    Python values are modelled as follows.
    - [str] is [string]; an optional header ([None] or a [str]) is
      [option string].
    - [int] is unbounded: [Z] for chunk numbers and for the budget, [nat]
      for lengths and for the token count, which only ever grows from 0 by
      lengths.
    - A [dict] is an association list in insertion order, the order that
      Python's [dict.items()] yields and that the stable [sorted] falls back
      on for equal keys.
    - An exception is a [Raise] outcome; a method of the mutable builder is
      a function from the builder's state to an outcome and the state the
      call leaves behind. *)

From Stdlib Require Import List String Ascii ZArith Arith Bool Lia.
From Stdlib Require Import Sorting.Sorted Sorting.Permutation.
Import ListNotations.

Local Open Scope string_scope.
Local Open Scope list_scope.

(** ** Exceptions and the state-and-exception monad *)

Inductive Exn : Type :=
| OverflowError
| KeyError
| IndexError
| ValueError.

Inductive result (A : Type) : Type :=
| Ok (a : A)
| Raise (e : Exn).

Arguments Ok {A} a.
Arguments Raise {A} e.

Definition M (S A : Type) : Type := S -> result A * S.

Definition ret {S A : Type} (a : A) : M S A :=
  fun s => (Ok a, s).

Definition bind {S A B : Type} (m : M S A) (k : A -> M S B) : M S B :=
  fun s =>
    match m s with
    | (Ok a, s') => k a s'
    | (Raise e, s') => (Raise e, s')
    end.

Definition get {S : Type} : M S S :=
  fun s => (Ok s, s).

Definition put {S : Type} (s : S) : M S unit :=
  fun _ => (Ok tt, s).

Definition raise {S A : Type} (e : Exn) : M S A :=
  fun s => (Raise e, s).

(** [d[k]] on a possibly missing key: Python raises [KeyError]. *)
Definition lift_key {S A : Type} (o : option A) : M S A :=
  match o with
  | Some a => ret a
  | None => raise KeyError
  end.

Declare Scope monad_scope.
Delimit Scope monad_scope with monad.
Notation "x <- m ;; k" := (bind m (fun x => k))
  (at level 61, m at next level, right associativity) : monad_scope.
Notation "m ;;; k" := (bind m (fun _ => k))
  (at level 61, right associativity) : monad_scope.

(** The same for code that raises but touches no state ([__str__]). *)
Definition rbind {A B : Type} (r : result A) (k : A -> result B) : result B :=
  match r with
  | Ok a => k a
  | Raise e => Raise e
  end.

Fixpoint mapR {A B : Type} (f : A -> result B) (l : list A) : result (list B) :=
  match l with
  | [] => Ok []
  | x :: l' =>
      rbind (f x) (fun y => rbind (mapR f l') (fun ys => Ok (y :: ys)))
  end.

(** ** Python dictionaries, in insertion order *)

Section Dict.
Context {V : Type}.

Definition dict : Type := list (string * V).

(** [k in d] *)
Fixpoint dict_contains (k : string) (d : dict) : bool :=
  match d with
  | [] => false
  | (k', _) :: d' => if String.eqb k k' then true else dict_contains k d'
  end.

(** [d[k]], [None] standing for [KeyError] *)
Fixpoint dict_get (k : string) (d : dict) : option V :=
  match d with
  | [] => None
  | (k', v) :: d' => if String.eqb k k' then Some v else dict_get k d'
  end.

(** [d[k] = v]: an existing key keeps its place, a new one goes last. *)
Fixpoint dict_set (k : string) (v : V) (d : dict) : dict :=
  match d with
  | [] => [(k, v)]
  | (k', v') :: d' =>
      if String.eqb k k' then (k', v) :: d' else (k', v') :: dict_set k v d'
  end.

Definition keys (d : dict) : list string := map fst d.
End Dict.

Arguments dict V : clear implicits.

(** ** [sorted(xs, key=...)]

    Python's [sorted] is stable, and a stable sort has one possible result;
    insertion from the right, placing an element before the first one whose
    key is not smaller, computes it. *)

Section Sorted.
Context {A : Type} (key : A -> Z).

Fixpoint insert_by (x : A) (l : list A) : list A :=
  match l with
  | [] => [x]
  | y :: l' => if (key x <=? key y)%Z then x :: l else y :: insert_by x l'
  end.

Definition sorted (l : list A) : list A := fold_right insert_by [] l.

(** The order that [sorted] puts a list in. *)
Definition key_le (x y : A) : Prop := (key x <= key y)%Z.
End Sorted.

(** [sorted] with a key function that may raise: Python computes the key of
    every element, in order, before it compares any two of them (also for a
    list of one element), so the first failing key decides the outcome. *)
Definition sortedR {A : Type} (key : A -> result Z) (l : list A) : result (list A) :=
  rbind (mapR key l) (fun ks => Ok (map snd (sorted fst (combine ks l)))).

(** ** The data the builder stores *)

Record Chunk : Type := mkChunk {
  content : string;
  chunkNumber : Z
}.

Record HeaderGroup : Type := mkHeaderGroup {
  header : string;
  chunks : list Chunk
}.

Record Document : Type := mkDocument {
  documentTitle : string;
  insertOrder : nat;
  headers : dict HeaderGroup
}.

Record DocumentStringBuilder : Type := mkBuilder {
  maxTokens : Z;
  tokenCount : nat;
  documents : dict Document
}.

(** The arguments of one [addChunk] call: the fields of a record that the
    vector index returns. *)
Record Fragment : Type := mkFragment {
  f_documentId : string;
  f_documentTitle : string;
  f_header : option string;
  f_content : string;
  f_chunkNumber : Z
}.

Definition with_tokenCount (n : nat) (self : DocumentStringBuilder) :=
  mkBuilder (maxTokens self) n (documents self).

Definition with_documents (d : dict Document) (self : DocumentStringBuilder) :=
  mkBuilder (maxTokens self) (tokenCount self) d.

Definition with_headers (h : dict HeaderGroup) (doc : Document) :=
  mkDocument (documentTitle doc) (insertOrder doc) h.

Definition with_chunks (c : list Chunk) (g : HeaderGroup) :=
  mkHeaderGroup (header g) c.

(** [if header is None: header = ''] *)
Definition normalizeHeader (h : option string) : string :=
  match h with
  | None => EmptyString
  | Some s => s
  end.

(** ** [DocumentStringBuilder.__init__]

    The budget is passed explicitly; the default of the source, for a call
    without argument, is 3500. *)

Definition init (maxTokens : Z) : result DocumentStringBuilder :=
  Ok (mkBuilder maxTokens 0 []).

(** The state that [init] leaves in [self]. *)
Definition emptyBuilder (maxTokens : Z) : DocumentStringBuilder :=
  mkBuilder maxTokens 0 [].

Section Builder.

(** [countTokens(s)] is [len(oiaEncoding.encode(s))] for tiktoken's
    [cl100k_base] encoding: a library function, taken as a parameter.  It
    is total here, which is the program on texts that the encoder counts;
    the encoder raises [ValueError] on a text that holds a special token,
    and the module [Raising] further down has the same functions with that
    exception. *)
Variable countTokens : string -> nat.

Local Open Scope monad_scope.

(** [self.tokenCount += n] *)
Definition addTokens (n : nat) : M DocumentStringBuilder unit :=
  self <- get ;;
  put (with_tokenCount (tokenCount self + n) self).

(** ** [DocumentStringBuilder.addChunk]

    The [try] around [countTokens(header)] re-raises a [TypeError] that
    only a header that is not a string can cause; with [header] a string
    here, it is the plain call. *)
Definition addChunk (documentId documentTitle : string) (header : option string)
    (content : string) (chunkNumber : Z) : M DocumentStringBuilder unit :=
  let chunkSize := countTokens content in
  self <- get ;;
  (if (Z.of_nat (chunkSize + tokenCount self) >? maxTokens self)%Z
   then raise OverflowError
   else ret tt) ;;;
  self <- get ;;
  (if negb (dict_contains documentId (documents self))
   then
     put (with_documents
            (dict_set documentId
               (mkDocument documentTitle (List.length (documents self)) [])
               (documents self))
            self) ;;;
     addTokens (countTokens documentTitle)
   else ret tt) ;;;
  let header := normalizeHeader header in
  self <- get ;;
  doc <- lift_key (dict_get documentId (documents self)) ;;
  (if negb (dict_contains header (headers doc))
   then
     put (with_documents
            (dict_set documentId
               (with_headers
                  (dict_set header (mkHeaderGroup header []) (headers doc))
                  doc)
               (documents self))
            self) ;;;
     addTokens (countTokens header)
   else ret tt) ;;;
  self <- get ;;
  doc <- lift_key (dict_get documentId (documents self)) ;;
  grp <- lift_key (dict_get header (headers doc)) ;;
  put (with_documents
         (dict_set documentId
            (with_headers
               (dict_set header
                  (with_chunks (chunks grp ++ [mkChunk content chunkNumber]) grp)
                  (headers doc))
               doc)
            (documents self))
         self) ;;;
  addTokens (countTokens content).

Definition addFragment (f : Fragment) : M DocumentStringBuilder unit :=
  addChunk (f_documentId f) (f_documentTitle f) (f_header f) (f_content f)
    (f_chunkNumber f).

End Builder.

(** ** [DocumentStringBuilder.__str__] *)

Definition dquote : string := String (ascii_of_nat 34) EmptyString.
Definition newline : string := String (ascii_of_nat 10) EmptyString.

(** The two kinds of Python value that the test [header != ''] of [__str__]
    compares: there [header] is the loop variable bound to the value of a
    [headers] entry, a dictionary, and [''] is a string. *)
Inductive PyVal : Type :=
| PyStr (s : string)
| PyDict (g : HeaderGroup).

Definition chunk_eqb (c1 c2 : Chunk) : bool :=
  String.eqb (content c1) (content c2) && (chunkNumber c1 =? chunkNumber c2)%Z.

Fixpoint chunks_eqb (l1 l2 : list Chunk) : bool :=
  match l1, l2 with
  | [], [] => true
  | c1 :: l1', c2 :: l2' => chunk_eqb c1 c2 && chunks_eqb l1' l2'
  | _, _ => false
  end.

(** Python's [==]: values of different types are never equal. *)
Definition py_eq (a b : PyVal) : bool :=
  match a, b with
  | PyStr s, PyStr t => String.eqb s t
  | PyDict g, PyDict h =>
      String.eqb (header g) (header h) && chunks_eqb (chunks g) (chunks h)
  | _, _ => false
  end.

Definition py_ne (a b : PyVal) : bool := negb (py_eq a b).

(** The innermost loop, over the chunks of one header in sorted order, with
    the loop variable [previousChunkNumber] as an accumulator. *)
Fixpoint chunkLines (previousChunkNumber : Z) (cs : list Chunk) : list string :=
  match cs with
  | [] => []
  | chunk :: cs' =>
      (if negb (previousChunkNumber =? 0)%Z
          && negb (chunkNumber chunk =? previousChunkNumber + 1)%Z
       then ["..."]
       else [])
      ++ content chunk :: chunkLines (chunkNumber chunk) cs'
  end.

(** The body of the loop over headers, whose loop variable [header] is
    [hdr] here: the header line, then the chunks. *)
Definition headerLines (hdr : HeaderGroup) : list string :=
  (if py_ne (PyDict hdr) (PyStr EmptyString)
   then [(header hdr ++ ":")%string]
   else [])
  ++ chunkLines 0 (sorted chunkNumber (chunks hdr)).

(** The sort key of a header, [h[1]['chunks'][0]['chunkNumber']]. *)
Definition firstChunkNumber (h : string * HeaderGroup) : result Z :=
  match chunks (snd h) with
  | [] => Raise IndexError
  | c :: _ => Ok (chunkNumber c)
  end.

Definition sortedHeaders (document : Document) : result (list (string * HeaderGroup)) :=
  sortedR firstChunkNumber (headers document).

Definition sortedDocuments (self : DocumentStringBuilder) : list (string * Document) :=
  sorted (fun doc => Z.of_nat (insertOrder (snd doc))) (documents self).

Section Render.

(** [str.upper], a library function, taken as a parameter. *)
Variable upper : string -> string.

Definition titleLine (documentId : string) (document : Document) : string :=
  let extra_hacky_final_word :=
    if String.eqb documentId "0" then "FINAL " else EmptyString in
  ("From document " ++ dquote ++ extra_hacky_final_word
    ++ upper (documentTitle document) ++ dquote ++ ":")%string.

(** The body of the loop over documents. *)
Definition documentLines (documentId : string) (document : Document)
  : result (list string) :=
  rbind (sortedHeaders document) (fun hs =>
  Ok (titleLine documentId document
        :: List.concat (map (fun h => headerLines (snd h)) hs)
        ++ [EmptyString])).

(** The list [lines] when the loops are over. *)
Definition lines (self : DocumentStringBuilder) : result (list string) :=
  rbind (mapR (fun d => documentLines (fst d) (snd d)) (sortedDocuments self))
        (fun blocks => Ok (List.concat blocks)).

Definition str (self : DocumentStringBuilder) : result string :=
  rbind (lines self) (fun ls => Ok (String.concat newline ls)).

End Render.

(** ** [chunksToText] and other callers *)

Section Callers.

Variable countTokens : string -> nat.
Variable upper : string -> string.

(** The loop of [chunksToText]: the first [OverflowError] ends it. *)
Fixpoint feed (chunks : list Fragment) : M DocumentStringBuilder unit :=
  match chunks with
  | [] => ret tt
  | chunk :: rest =>
      fun builder =>
        match addFragment countTokens chunk builder with
        | (Ok _, builder') => feed rest builder'
        | (Raise OverflowError, builder') => (Ok tt, builder')
        | (Raise e, builder') => (Raise e, builder')
        end
  end.

Definition chunksToText (chunks : list Fragment) (maxTokens : Z) : result string :=
  rbind (init maxTokens) (fun builder =>
  match feed chunks builder with
  | (Ok _, builder') => str upper builder'
  | (Raise e, _) => Raise e
  end).

(** Any sequence of [addChunk] calls on one builder, by a caller that goes
    on after a call has raised: the state each call leaves behind is the
    state the next one starts from.  The result pairs the final state with
    the fragments whose call returned normally, in call order. *)
Fixpoint addChunks (fs : list Fragment) (self : DocumentStringBuilder)
  : DocumentStringBuilder * list Fragment :=
  match fs with
  | [] => (self, [])
  | f :: fs' =>
      match addFragment countTokens f self with
      | (Ok _, self') =>
          let (final, accepted) := addChunks fs' self' in (final, f :: accepted)
      | (Raise _, self') => addChunks fs' self'
      end
  end.

End Callers.

(** ** Stand-ins for the two library functions, for closed examples

    [charTokens] counts characters and [asciiUpper] maps [a]..[z] to
    [A]..[Z].  On the strings of the examples below (the empty string and
    single ASCII letters or digits) they agree with [cl100k_base], which
    has one token for each single byte and none for the empty string, and
    with [str.upper]. *)

Definition charTokens (s : string) : nat := String.length s.

Definition upperChar (c : ascii) : ascii :=
  let n := nat_of_ascii c in
  if ((97 <=? n) && (n <=? 122))%nat then ascii_of_nat (n - 32) else c.

Fixpoint asciiUpper (s : string) : string :=
  match s with
  | EmptyString => EmptyString
  | String c s' => String (upperChar c) (asciiUpper s')
  end.

(** ** What one call of [addChunk] does, in closed form *)

Definition toChunk (f : Fragment) : Chunk :=
  mkChunk (f_content f) (f_chunkNumber f).

Definition f_normalizedHeader (f : Fragment) : string :=
  normalizeHeader (f_header f).

(** The document entry and the header entry that a fragment lands in: the
    ones already there, or the fresh ones that [addChunk] makes. *)
Definition documentFor (self : DocumentStringBuilder) (f : Fragment) : Document :=
  match dict_get (f_documentId f) (documents self) with
  | Some doc => doc
  | None => mkDocument (f_documentTitle f) (List.length (documents self)) []
  end.

Definition groupFor (self : DocumentStringBuilder) (f : Fragment) : HeaderGroup :=
  match dict_get (f_normalizedHeader f) (headers (documentFor self f)) with
  | Some grp => grp
  | None => mkHeaderGroup (f_normalizedHeader f) []
  end.

Definition isNewDocument (self : DocumentStringBuilder) (f : Fragment) : bool :=
  negb (dict_contains (f_documentId f) (documents self)).

Definition isNewHeader (self : DocumentStringBuilder) (f : Fragment) : bool :=
  match dict_get (f_documentId f) (documents self) with
  | Some doc => negb (dict_contains (f_normalizedHeader f) (headers doc))
  | None => true
  end.

Section Ingestion.

Variable countTokens : string -> nat.

Definition titleCost (self : DocumentStringBuilder) (f : Fragment) : nat :=
  if isNewDocument self f then countTokens (f_documentTitle f) else 0.

Definition headerCost (self : DocumentStringBuilder) (f : Fragment) : nat :=
  if isNewHeader self f then countTokens (f_normalizedHeader f) else 0.

(** The incremental cost in the words of the specification: the content,
    plus the title when the document is new to the builder, plus the
    normalized header when it is new for that document. *)
Definition incrementalCost (self : DocumentStringBuilder) (f : Fragment) : nat :=
  countTokens (f_content f) + titleCost self f + headerCost self f.

(** The test that guards the [raise OverflowError] of [addChunk]. *)
Definition overflows (self : DocumentStringBuilder) (f : Fragment) : bool :=
  (Z.of_nat (countTokens (f_content f) + tokenCount self) >? maxTokens self)%Z.

(** The state after a call that got past that test. *)
Definition committed (self : DocumentStringBuilder) (f : Fragment)
  : DocumentStringBuilder :=
  let doc := documentFor self f in
  let grp := groupFor self f in
  mkBuilder (maxTokens self)
    (tokenCount self + titleCost self f + headerCost self f
     + countTokens (f_content f))
    (dict_set (f_documentId f)
       (with_headers
          (dict_set (f_normalizedHeader f)
             (with_chunks (chunks grp ++ [toChunk f]) grp)
             (headers doc))
          doc)
       (documents self)).

End Ingestion.

(** ** Statements of the specification that the code is compared with *)

(** "Ingest fails with Overflow if and only if tokensConsumed plus the full
    incremental cost exceeds maxTokens", at one state and one fragment. *)
Definition overflow_iff_full_cost (countTokens : string -> nat)
    (self : DocumentStringBuilder) (f : Fragment) : Prop :=
  fst (addFragment countTokens f self) = Raise OverflowError
  <-> (Z.of_nat (tokenCount self + incrementalCost countTokens self f)
       > maxTokens self)%Z.

(** "After a successful ingestion tokensConsumed does not exceed maxTokens",
    at one state and one fragment. *)
Definition within_budget_after (countTokens : string -> nat)
    (self : DocumentStringBuilder) (f : Fragment) : Prop :=
  fst (addFragment countTokens f self) = Ok tt ->
  (Z.of_nat (tokenCount (snd (addFragment countTokens f self)))
   <= maxTokens (snd (addFragment countTokens f self)))%Z.

(** "Constructing a builder with this budget fails." *)
Definition construction_fails (maxTokens : Z) : Prop :=
  exists e, init maxTokens = Raise e.

(** ** The accepted fragments, seen from outside the builder *)

Definition fromDocument (id : string) (f : Fragment) : bool :=
  String.eqb (f_documentId f) id.

Definition belongs (id h : string) (f : Fragment) : bool :=
  String.eqb (f_documentId f) id && String.eqb (f_normalizedHeader f) h.

(** The chunk list stored under a document and a header, empty when there
    is no such entry. *)
Definition chunksOf (self : DocumentStringBuilder) (id h : string) : list Chunk :=
  match dict_get id (documents self) with
  | Some doc =>
      match dict_get h (headers doc) with
      | Some grp => chunks grp
      | None => []
      end
  | None => []
  end.

Definition mem (k : string) (l : list string) : bool :=
  existsb (String.eqb k) l.

(** The distinct identifiers of a list in order of first appearance, after
    those already [seen]. *)
Fixpoint firstSeen (seen ids : list string) : list string :=
  match ids with
  | [] => seen
  | i :: ids' => firstSeen (if mem i seen then seen else seen ++ [i]) ids'
  end.



Definition sameDocument (f g : Fragment) : bool :=
  fromDocument (f_documentId f) g.

Definition sameGroup (f g : Fragment) : bool :=
  belongs (f_documentId f) (f_normalizedHeader f) g.

(** The fragments that no earlier fragment (of [seen], or of the list
    itself) is the [same] as: one per distinct document, or one per distinct
    pair of document and normalized header. *)
Fixpoint firstOccurrences (same : Fragment -> Fragment -> bool)
    (seen fs : list Fragment) : list Fragment :=
  match fs with
  | [] => []
  | f :: fs' =>
      if existsb (same f) seen
      then firstOccurrences same (seen ++ [f]) fs'
      else f :: firstOccurrences same (seen ++ [f]) fs'
  end.

Definition sumTokens (countTokens : string -> nat) (part : Fragment -> string)
    (fs : list Fragment) : nat :=
  list_sum (map (fun f => countTokens (part f)) fs).

(** The total of the specification: the content of every fragment, the
    title once for each distinct document, the normalized header once for
    each distinct pair of document and normalized header. *)
Definition expectedTokens (countTokens : string -> nat) (fs : list Fragment) : nat :=
  sumTokens countTokens f_content fs
  + sumTokens countTokens f_documentTitle (firstOccurrences sameDocument [] fs)
  + sumTokens countTokens f_normalizedHeader (firstOccurrences sameGroup [] fs).

(** What holds of a builder that has accepted the fragments [pre], in that
    order, since it was made. *)
Record consistent (pre : list Fragment) (self : DocumentStringBuilder) : Prop := {
  c_keys : NoDup (keys (documents self));
  c_first : keys (documents self) = firstSeen [] (map f_documentId pre);
  c_order :
    map (fun e => insertOrder (snd e)) (documents self)
    = seq 0 (List.length (documents self));
  c_hkeys :
    forall id doc, In (id, doc) (documents self) -> NoDup (keys (headers doc));
  c_nonempty :
    forall id doc h grp,
      In (id, doc) (documents self) -> In (h, grp) (headers doc) ->
      chunks grp <> [];
  c_chunks :
    forall id h, chunksOf self id h = map toChunk (filter (belongs id h) pre)
}.

(** ** Fragments of the closed examples *)

(** A new document and a new header, with one token each for the title,
    the header and the content. *)
Definition oneTokenEach : Fragment := mkFragment "d" "t" (Some "h") "c" 1.

(** One fragment with no header. *)
Definition noHeaderFragment : Fragment := mkFragment "1" "t" None "c" 1.

(** Two fragments of one header, the first and the third chunk of their
    document ([indexChunks] numbers the chunks of a document from 0). *)
Definition chunkZero : Fragment := mkFragment "1" "t" (Some "h") "a" 0.
Definition chunkTwo : Fragment := mkFragment "1" "t" (Some "h") "b" 2.

(** Two documents whose fragments interleave; the one seen first has the
    greater identifier and title. *)
Definition interleaved : list Fragment :=
  [ mkFragment "9" "z" (Some "h") "a" 4;
    mkFragment "1" "b" (Some "h") "c" 1;
    mkFragment "9" "z" (Some "h") "d" 5 ].

(** Two headers of one document: header [a] comes first into the builder
    and first in the alphabet and has the lowest sequence number (1), but
    its first-arriving fragment has number 9, against 5 for header [b]. *)
Definition twoHeaders : list Fragment :=
  [ mkFragment "1" "t" (Some "a") "x" 9;
    mkFragment "1" "t" (Some "b") "y" 5;
    mkFragment "1" "t" (Some "a") "z" 1 ].

(** ** The lines of a document whose header entries all have a chunk *)

(** The sort key of a header entry that has a chunk. *)
Definition headKey (e : string * HeaderGroup) : Z :=
  match chunks (snd e) with
  | c :: _ => chunkNumber c
  | [] => 0
  end.

Definition documentBlock (upper : string -> string) (e : string * Document)
  : list string :=
  titleLine upper (fst e) (snd e)
    :: List.concat (map (fun h => headerLines (snd h))
                        (sorted headKey (headers (snd e))))
    ++ [EmptyString].

(** ** Further statements about the builder *)


(** The gap rule in the words of the specification: within a header, a
    marker line stands between two neighbouring chunks exactly when their
    sequence numbers do not differ by 1. *)
Fixpoint gapsAfter (previous : Chunk) (cs : list Chunk) : list string :=
  match cs with
  | [] => []
  | c :: cs' =>
      (if (chunkNumber c - chunkNumber previous =? 1)%Z then [] else ["..."])
      ++ content c :: gapsAfter c cs'
  end.

Definition gapLines (cs : list Chunk) : list string :=
  match cs with
  | [] => []
  | c :: cs' => content c :: gapsAfter c cs'
  end.

(** ** [document_groups] and [checkboxIndicestoDocumentIds] *)

(** [l[i]] for a Python list and an integer: a negative index counts from
    the end, an index outside [-len(l), len(l))] raises [IndexError]. *)
Definition list_getitem {A : Type} (l : list A) (i : Z) : result A :=
  let n := Z.of_nat (List.length l) in
  let j := if (i <? 0)%Z then (i + n)%Z else i in
  if ((0 <=? j) && (j <? n))%Z
  then match nth_error l (Z.to_nat j) with
       | Some a => Ok a
       | None => Raise IndexError
       end
  else Raise IndexError.

(** The labels of the checkboxes, each with the document identifiers of the
    vector index that it turns on. *)
Definition document_groups : list (string * list Z) :=
  [ ("BBNJ final draft agreement", [0]);
    ("Prior 5th-session draft agreements", [1; 5; 45]);
    ("Small group work outcomes", [2]);
    ("Delegates' submitted proposals", [6]);
    ("President's statement on suspension", [46]);
    ("Party statements",
     [7; 8; 9; 10; 11; 12; 13; 14; 15; 16; 17; 18; 19; 20; 21; 22; 23; 24]);
    ("Earth Negotiations Bulletin Reports: initial 5th session",
     [35; 36; 37; 38; 39; 40; 41; 42; 43; 44]);
    ("Earth Negotiations Bulletin Reports: resumed 5th session",
     [25; 26; 227; 28; 29; 30; 31; 32; 33; 34]) ]%Z.

(** The loop of [checkboxIndicestoDocumentIds], with the list [documentIds]
    that it extends as an accumulator. *)
Fixpoint extendWithGroups (checkboxIndices : list Z) (documentIds : list Z)
  : result (list Z) :=
  match checkboxIndices with
  | [] => Ok documentIds
  | i :: rest =>
      rbind (list_getitem document_groups i) (fun group =>
      extendWithGroups rest (documentIds ++ snd group))
  end.

Definition checkboxIndicestoDocumentIds (checkboxIndices : list Z)
  : result (list Z) :=
  extendWithGroups checkboxIndices [].

(** ** The index builder: [getChunks] and [indexChunks] of [buildindex.py] *)

(** One entry of [data['metadata']['sections']] of a Science Parse file,
    after [json.load]: a heading, [None] for a JSON null, and a text. *)
Record SPSection : Type := mkSection {
  heading : option string;
  text : string
}.

(** What [getChunks] yields: [{'header': ..., 'content': ...}]. *)
Record IndexChunk : Type := mkIndexChunk {
  ic_header : option string;
  ic_content : string
}.

(** [s.split('\n')]: the pieces between the newlines, one more than there
    are newlines. *)
Fixpoint splitNewline (s : string) : list string :=
  match s with
  | EmptyString => [EmptyString]
  | String c s' =>
      if Ascii.eqb c (ascii_of_nat 10)
      then EmptyString :: splitNewline s'
      else match splitNewline s' with
           | p :: ps => String c p :: ps
           | [] => [String c EmptyString]
           end
  end.

Section IndexBuilder.

Variable countTokens : string -> nat.

(** [str.strip], a library function, taken as a parameter. *)
Variable strip : string -> string.

(** The loop over the paragraphs of a long section: the chunks it yields,
    and the value it leaves in [chunk_in_progress]. *)
Fixpoint paragraphLoop (header : option string) (paragraphs : list string)
    (chunk_in_progress : string) : list IndexChunk * string :=
  match paragraphs with
  | [] => ([], chunk_in_progress)
  | paragraph :: rest =>
      let chunk_in_progress := (chunk_in_progress ++ newline ++ paragraph)%string in
      if (100 <? countTokens chunk_in_progress)%nat
      then
        let (yielded, left) := paragraphLoop header rest EmptyString in
        (mkIndexChunk header (strip chunk_in_progress) :: yielded, left)
      else paragraphLoop header rest chunk_in_progress
  end.

(** The loop over the sections, with the variable [chunk_in_progress] that
    lives across its rounds. *)
Fixpoint sectionLoop (sections : list SPSection) (chunk_in_progress : string)
  : list IndexChunk :=
  match sections with
  | [] => []
  | section :: rest =>
      let header := heading section in
      let content := text section in
      if (countTokens content <? 200)%nat
      then mkIndexChunk header content :: sectionLoop rest chunk_in_progress
      else
        let (yielded, left) :=
          paragraphLoop header (splitNewline content) EmptyString in
        yielded ++ mkIndexChunk header (strip left) :: sectionLoop rest left
  end.

(** [getChunks], on the sections read from the file. *)
Definition getChunks (sections : list SPSection) : list IndexChunk :=
  sectionLoop sections EmptyString.

(** The loop of [indexChunks]: the objects it adds to the batch, which have
    the fields of a [Fragment], with the running [counter]. *)
Fixpoint indexLoop (documentId documentTitle : string)
    (chunks : list IndexChunk) (counter : Z) : list Fragment :=
  match chunks with
  | [] => []
  | chunk :: rest =>
      mkFragment documentId documentTitle (ic_header chunk) (ic_content chunk)
        counter
      :: indexLoop documentId documentTitle rest (counter + 1)
  end.

Definition indexChunks (sections : list SPSection)
    (documentId documentTitle : string) : list Fragment :=
  indexLoop documentId documentTitle (getChunks sections) 0.

(** The texts that the paragraph loop closes, before [strip], with what is
    left at the end as the last one. *)
Fixpoint rawPieces (paragraphs : list string) (chunk_in_progress : string)
  : list string :=
  match paragraphs with
  | [] => [chunk_in_progress]
  | paragraph :: rest =>
      let chunk_in_progress := (chunk_in_progress ++ newline ++ paragraph)%string in
      if (100 <? countTokens chunk_in_progress)%nat
      then chunk_in_progress :: rawPieces rest EmptyString
      else rawPieces rest chunk_in_progress
  end.

End IndexBuilder.

(** All the strings of a list, one after the other. *)
Definition joined (l : list string) : string :=
  fold_right String.append EmptyString l.

(** A stand-in for [str.strip] in closed examples: it removes the ASCII
    characters that [str.isspace] holds for (codes 9 to 13, 28 to 32) at
    both ends, as [str.strip] does on ASCII text. *)
Definition isSpace (c : ascii) : bool :=
  let n := nat_of_ascii c in
  (((9 <=? n) && (n <=? 13)) || ((28 <=? n) && (n <=? 32)))%nat.

Fixpoint lstrip (s : string) : string :=
  match s with
  | EmptyString => EmptyString
  | String c s' => if isSpace c then lstrip s' else s
  end.

Fixpoint rstrip (s : string) : string :=
  match s with
  | EmptyString => EmptyString
  | String c s' =>
      match rstrip s' with
      | EmptyString => if isSpace c then EmptyString else String c EmptyString
      | r => String c r
      end
  end.

Definition asciiStrip (s : string) : string := rstrip (lstrip s).

(** A paragraph of 200 letters, and a section made of it. *)
Definition longParagraph : string :=
  joined (repeat "abcdefghij" 20).

Definition longSection : SPSection := mkSection (Some "h") longParagraph.

(** ** [runquery] and [runbutton_click_helper] *)

(** The default budget of [chunksToText]. *)
Definition MAX_TOKENS : Z := 3000.

(** The names that the module [gradioserver.py] binds at its top level (by
    [import], assignment, [def], [class] and [with ... as]) before the
    interface is launched. *)
Definition moduleNames : list string :=
  [ "gr"; "openai_key"; "weaviate"; "json"; "os"; "openai";
    "WEAVIATE_HOST"; "LOGGING_PATH"; "MAX_TOKENS"; "MODEL_NAME";
    "logging"; "log_handler"; "log_formatter"; "logger";
    "tiktoken"; "oiaEncoding"; "countTokens";
    "document_groups"; "document_checkboxes"; "checkboxIndicestoDocumentIds";
    "fetchchunks"; "DocumentStringBuilder"; "chunksToText";
    "fetchOpenaiCompletion"; "runquery";
    "demo"; "question"; "documents"; "temperature"; "btn_run"; "answer";
    "sourcechunks"; "feedback_tags"; "feedback_comment"; "feedback_name";
    "btn_flag"; "feedback_message"; "runbutton_click_helper"; "flagger";
    "btn_flag_click_helper" ].

(** The exceptions met at the level of a query: those of the builder and
    of list indexing, [NameError] for a name that is not bound, [TypeError],
    and whatever a service outside the program raises. *)
Inductive PyExn : Type :=
| Builtin (e : Exn)
| NameError (name : string)
| TypeError
| ServiceError.

Inductive presult (A : Type) : Type :=
| POk (a : A)
| PRaise (e : PyExn).

Arguments POk {A} a.
Arguments PRaise {A} e.

Definition pbind {A B : Type} (r : presult A) (k : A -> presult B) : presult B :=
  match r with
  | POk a => k a
  | PRaise e => PRaise e
  end.

Definition lift {A : Type} (r : result A) : presult A :=
  match r with
  | Ok a => POk a
  | Raise e => PRaise (Builtin e)
  end.

(** The calls on [logger] that [runquery] makes, with their arguments. *)
Inductive LogRecord (T : Type) : Type :=
| InfoQuery (question : string)
| InfoAnswer (ip question : string) (documentCheckboxIndices : list Z)
    (temperature : T) (completion : string)
| ExceptionHappened
| ExceptionOccurred (ip question : string) (documentCheckboxIndices : list Z)
    (temperature : T).

Arguments InfoQuery {T} question.
Arguments InfoAnswer {T} ip question documentCheckboxIndices temperature completion.
Arguments ExceptionHappened {T}.
Arguments ExceptionOccurred {T} ip question documentCheckboxIndices temperature.

Section RunQuery.

Variable countTokens : string -> nat.
Variable upper : string -> string.

(** The type of the temperature; it is only passed on. *)
Variable Temperature : Type.

(** The search of the vector index, [fetchchunks], and the call to the
    completion service with the reading of its answer,
    [fetchOpenaiCompletion(...)['choices'][0]['message']['content']]: both
    reach outside the program and may raise. *)
Variable fetchchunks : string -> list Z -> presult (list Fragment).
Variable fetchOpenaiCompletion : string -> string -> Temperature -> presult string.

(** Reading a global name in order to call it as the search function: the
    module binds that function to [fetchchunks]; a name that the module
    does not bind raises [NameError]; a name that it binds to something else
    does not give the search function. *)
Definition searchFunction (name : string)
  : presult (string -> list Z -> presult (list Fragment)) :=
  if String.eqb name "fetchchunks" then POk fetchchunks
  else if mem name moduleNames then PRaise TypeError
  else PRaise (NameError name).

(** The body of the [try] of [runquery], up to the values it returns. *)
Definition runquery_try (question : string) (documentCheckboxIndices : list Z)
    (temperature : Temperature) : presult (string * string) :=
  pbind (lift (checkboxIndicestoDocumentIds documentCheckboxIndices))
    (fun documentIds =>
  pbind (searchFunction "fetchChunks") (fun fetchChunks =>
  pbind (fetchChunks question documentIds) (fun chunks =>
  pbind (lift (chunksToText countTokens upper chunks MAX_TOKENS))
    (fun chunksString =>
  pbind (fetchOpenaiCompletion question chunksString temperature)
    (fun completion =>
  POk (completion, chunksString)))))).

(** [runquery]: what it returns ([None] when it falls off its end after the
    [except] clause) and what it has logged; [ip] is
    [request.client.host]. *)
Definition runquery (question : string) (documentCheckboxIndices : list Z)
    (temperature : Temperature) (ip : string)
  : option (string * string) * list (LogRecord Temperature) :=
  match runquery_try question documentCheckboxIndices temperature with
  | POk (completion, chunksString) =>
      (Some (completion, chunksString),
       [ InfoQuery question;
         InfoAnswer ip question documentCheckboxIndices temperature completion ])
  | PRaise _ =>
      (None,
       [ InfoQuery question;
         ExceptionHappened;
         ExceptionOccurred ip question documentCheckboxIndices temperature ])
  end.

(** [runbutton_click_helper], up to the values for the answer box and the
    source box: it unpacks what [runquery] returns into two names, which
    raises [TypeError] on [None]. *)
Definition runbutton_click_helper (question : string)
    (documentCheckboxIndices : list Z) (temperature : Temperature) (ip : string)
  : presult (string * string) :=
  match fst (runquery question documentCheckboxIndices temperature ip) with
  | Some (answer_value, sourcechunks_value) =>
      POk (answer_value, sourcechunks_value)
  | None => PRaise TypeError
  end.

End RunQuery.

(** Three short sections under one heading, for closed examples. *)
Definition threeSections : list SPSection :=
  [ mkSection (Some "h") "a"; mkSection (Some "h") "b"; mkSection (Some "h") "c" ].

(** ** The tokenizer that raises

    [oiaEncoding.encode] raises [ValueError] on a text that holds one of
    the special tokens of the encoding (such as the end-of-text marker), so
    [countTokens] returns a count for some texts only.  The definitions
    above, with [countTokens : string -> nat], are the program on texts
    that it counts.  The module below transcribes the same functions with
    the [ValueError] of every call of [countTokens] and the state that the
    call leaves behind; [None] stands for the text that [encode] refuses. *)

(** The count of a text, 0 where there is none. *)
Definition counted (countTokens : string -> option nat) (s : string) : nat :=
  match countTokens s with
  | Some n => n
  | None => 0
  end.

(** The tokenizer counts the content, the title and the normalized header
    of a fragment: none of them holds a special token. *)
Definition countable (countTokens : string -> option nat) (f : Fragment) : Prop :=
  countTokens (f_content f) <> None
  /\ countTokens (f_documentTitle f) <> None
  /\ countTokens (f_normalizedHeader f) <> None.

Module Raising.

Section Builder.

Variable countTokens : string -> option nat.

Local Open Scope monad_scope.

(** A call [countTokens(s)] inside a method of the builder. *)
Definition count (s : string) : M DocumentStringBuilder nat :=
  match countTokens s with
  | Some n => ret n
  | None => raise ValueError
  end.

(** [DocumentStringBuilder.addChunk] *)
Definition addChunk (documentId documentTitle : string) (header : option string)
    (content : string) (chunkNumber : Z) : M DocumentStringBuilder unit :=
  chunkSize <- count content ;;
  self <- get ;;
  (if (Z.of_nat (chunkSize + tokenCount self) >? maxTokens self)%Z
   then raise OverflowError
   else ret tt) ;;;
  self <- get ;;
  (if negb (dict_contains documentId (documents self))
   then
     put (with_documents
            (dict_set documentId
               (mkDocument documentTitle (List.length (documents self)) [])
               (documents self))
            self) ;;;
     n <- count documentTitle ;;
     addTokens n
   else ret tt) ;;;
  let header := normalizeHeader header in
  self <- get ;;
  doc <- lift_key (dict_get documentId (documents self)) ;;
  (if negb (dict_contains header (headers doc))
   then
     put (with_documents
            (dict_set documentId
               (with_headers
                  (dict_set header (mkHeaderGroup header []) (headers doc))
                  doc)
               (documents self))
            self) ;;;
     n <- count header ;;
     addTokens n
   else ret tt) ;;;
  self <- get ;;
  doc <- lift_key (dict_get documentId (documents self)) ;;
  grp <- lift_key (dict_get header (headers doc)) ;;
  put (with_documents
         (dict_set documentId
            (with_headers
               (dict_set header
                  (with_chunks (chunks grp ++ [mkChunk content chunkNumber]) grp)
                  (headers doc))
               doc)
            (documents self))
         self) ;;;
  n <- count content ;;
  addTokens n.

Definition addFragment (f : Fragment) : M DocumentStringBuilder unit :=
  addChunk (f_documentId f) (f_documentTitle f) (f_header f) (f_content f)
    (f_chunkNumber f).

Variable upper : string -> string.

(** The loop of [chunksToText]: [except OverflowError: break]; any other
    exception leaves the function. *)
Fixpoint feed (chunks : list Fragment) : M DocumentStringBuilder unit :=
  match chunks with
  | [] => ret tt
  | chunk :: rest =>
      fun builder =>
        match addFragment chunk builder with
        | (Ok _, builder') => feed rest builder'
        | (Raise OverflowError, builder') => (Ok tt, builder')
        | (Raise e, builder') => (Raise e, builder')
        end
  end.

Definition chunksToText (chunks : list Fragment) (maxTokens : Z) : result string :=
  rbind (init maxTokens) (fun builder =>
  match feed chunks builder with
  | (Ok _, builder') => str upper builder'
  | (Raise e, _) => Raise e
  end).

(** Any sequence of [addChunk] calls on one builder, by a caller that goes
    on after a call has raised, whatever it raised: the state each call
    leaves behind is the state the next one starts from.  The result pairs
    the final state with the fragments whose call returned normally. *)
Fixpoint addChunks (fs : list Fragment) (self : DocumentStringBuilder)
  : DocumentStringBuilder * list Fragment :=
  match fs with
  | [] => (self, [])
  | f :: fs' =>
      match addFragment f self with
      | (Ok _, self') =>
          let (final, accepted) := addChunks fs' self' in (final, f :: accepted)
      | (Raise _, self') => addChunks fs' self'
      end
  end.

End Builder.

Section IndexBuilder.

Variable countTokens : string -> option nat.
Variable strip : string -> string.

(** The loop over the paragraphs of a long section: the chunks it yields
    before it ends or raises, and the value it leaves in
    [chunk_in_progress] when it ends. *)
Fixpoint paragraphLoop (header : option string) (paragraphs : list string)
    (chunk_in_progress : string) : list IndexChunk * result string :=
  match paragraphs with
  | [] => ([], Ok chunk_in_progress)
  | paragraph :: rest =>
      let chunk_in_progress := (chunk_in_progress ++ newline ++ paragraph)%string in
      match countTokens chunk_in_progress with
      | None => ([], Raise ValueError)
      | Some n =>
          if (100 <? n)%nat
          then
            let (yielded, carried) := paragraphLoop header rest EmptyString in
            (mkIndexChunk header (strip chunk_in_progress) :: yielded, carried)
          else paragraphLoop header rest chunk_in_progress
      end
  end.

(** The loop over the sections: the chunks that the generator yields
    before it ends or raises, and how it ends. *)
Fixpoint sectionLoop (sections : list SPSection) (chunk_in_progress : string)
  : list IndexChunk * result unit :=
  match sections with
  | [] => ([], Ok tt)
  | section :: rest =>
      let header := heading section in
      let content := text section in
      match countTokens content with
      | None => ([], Raise ValueError)
      | Some n =>
          if (n <? 200)%nat
          then
            let (yielded, outcome) := sectionLoop rest chunk_in_progress in
            (mkIndexChunk header content :: yielded, outcome)
          else
            match paragraphLoop header (splitNewline content) EmptyString with
            | (yielded, Raise e) => (yielded, Raise e)
            | (yielded, Ok carried) =>
                let (more, outcome) := sectionLoop rest carried in
                (yielded ++ mkIndexChunk header (strip carried) :: more, outcome)
            end
      end
  end.

Definition getChunks (sections : list SPSection)
  : list IndexChunk * result unit :=
  sectionLoop sections EmptyString.

End IndexBuilder.

End Raising.

(** The state that [Raising.addChunk] leaves when [countTokens] refuses the
    title of a new document: the document is stored, with no header and
    nothing counted. *)
Definition afterTitleError (self : DocumentStringBuilder) (f : Fragment)
  : DocumentStringBuilder :=
  with_documents
    (dict_set (f_documentId f)
       (mkDocument (f_documentTitle f) (List.length (documents self)) [])
       (documents self))
    self.

(** The state that it leaves when [countTokens] refuses a new header: the
    document is stored with the header entry, which holds no chunk; the
    title of a new document has been counted. *)
Definition afterHeaderError (countTokens : string -> option nat)
    (self : DocumentStringBuilder) (f : Fragment) : DocumentStringBuilder :=
  mkBuilder (maxTokens self)
    (tokenCount self + titleCost (counted countTokens) self f)
    (dict_set (f_documentId f)
       (with_headers
          (dict_set (f_normalizedHeader f)
             (mkHeaderGroup (f_normalizedHeader f) [])
             (headers (documentFor self f)))
          (documentFor self f))
       (documents self)).

(** What one call of [Raising.addChunk] does, in closed form. *)
Definition outcome (countTokens : string -> option nat)
    (self : DocumentStringBuilder) (f : Fragment)
  : result unit * DocumentStringBuilder :=
  match countTokens (f_content f) with
  | None => (Raise ValueError, self)
  | Some _ =>
      if overflows (counted countTokens) self f
      then (Raise OverflowError, self)
      else
        match isNewDocument self f, countTokens (f_documentTitle f) with
        | true, None => (Raise ValueError, afterTitleError self f)
        | _, _ =>
            match isNewHeader self f, countTokens (f_normalizedHeader f) with
            | true, None => (Raise ValueError, afterHeaderError countTokens self f)
            | _, _ => (Ok tt, committed (counted countTokens) self f)
            end
        end
  end.

(** A stand-in for the tokenizer that raises, for closed examples: it
    refuses a text that holds the end-of-text marker, as [cl100k_base]
    does, and counts the characters of any other. *)
Definition endOfText : string := "<|endoftext|>".

Definition charTokensRaising (s : string) : option nat :=
  match String.index 0 endOfText s with
  | Some _ => None
  | None => Some (String.length s)
  end.


Definition markerInHeader : Fragment :=
  mkFragment "1" "t" (Some endOfText) "c" 1.

(** A section whose text holds the end-of-text marker. *)
Definition markerSection : SPSection := mkSection (Some "h") endOfText.

(** * Properties *)

(** ** Dictionaries *)

Section DictFacts.
Context {V : Type}.
Implicit Types (d : dict V) (k : string) (v : V).

Lemma dict_contains_get k d :
  dict_contains k d = match dict_get k d with Some _ => true | None => false end.
Proof.
  induction d as [|[k' v'] d IH]; simpl; [reflexivity|].
  destruct (String.eqb k k'); [reflexivity | exact IH].
Qed.

Lemma dict_contains_keys k d :
  dict_contains k d = true <-> In k (keys d).
Proof.
  induction d as [|[k' v'] d IH]; simpl.
  - split; [discriminate | tauto].
  - destruct (String.eqb_spec k k') as [->|Hne].
    + split; auto.
    + rewrite IH. split; [auto | intros [E|H]; [congruence | exact H]].
Qed.

Lemma dict_get_set k' k v d :
  dict_get k' (dict_set k v d) = if String.eqb k' k then Some v else dict_get k' d.
Proof.
  induction d as [|[k0 v0] d IH]; simpl.
  - reflexivity.
  - destruct (String.eqb_spec k k0) as [->|Hk]; simpl.
    + destruct (String.eqb k' k0); reflexivity.
    + destruct (String.eqb_spec k' k0) as [->|Hk'].
      * destruct (String.eqb_spec k0 k); [congruence | reflexivity].
      * exact IH.
Qed.

Lemma dict_get_set_same k v d : dict_get k (dict_set k v d) = Some v.
Proof. rewrite dict_get_set, String.eqb_refl. reflexivity. Qed.

Lemma dict_set_set k v1 v2 d :
  dict_set k v2 (dict_set k v1 d) = dict_set k v2 d.
Proof.
  induction d as [|[k0 v0] d IH]; simpl.
  - rewrite String.eqb_refl. reflexivity.
  - destruct (String.eqb k k0) eqn:E; simpl; rewrite E; [reflexivity|].
    rewrite IH. reflexivity.
Qed.

Lemma dict_set_new k v d :
  dict_contains k d = false -> dict_set k v d = d ++ [(k, v)].
Proof.
  induction d as [|[k0 v0] d IH]; simpl; [reflexivity|].
  destruct (String.eqb k k0); [discriminate|].
  intros H. rewrite (IH H). reflexivity.
Qed.

Lemma keys_dict_set k v d :
  keys (dict_set k v d) = if dict_contains k d then keys d else keys d ++ [k].
Proof.
  unfold keys.
  induction d as [|[k0 v0] d IH]; simpl; [reflexivity|].
  destruct (String.eqb k k0); simpl; [reflexivity|].
  rewrite IH. destruct (dict_contains k d); reflexivity.
Qed.

Lemma dict_get_In k v d : dict_get k d = Some v -> In (k, v) d.
Proof.
  induction d as [|[k0 v0] d IH]; simpl; [discriminate|].
  destruct (String.eqb_spec k k0) as [->|Hk].
  - intros [= ->]. now left.
  - intros H. right. exact (IH H).
Qed.


Lemma In_dict_set k v k' v' d :
  In (k', v') (dict_set k v d) -> (k' = k /\ v' = v) \/ In (k', v') d.
Proof.
  induction d as [|[k0 v0] d IH]; simpl.
  - intros [[= <- <-]|[]]. now left.
  - destruct (String.eqb_spec k k0) as [->|Hk]; simpl.
    + intros [[= <- <-]|H]; [now left | right; now right].
    + intros [E|H]; [right; now left|].
      destruct (IH H) as [?|?]; [now left | right; now right].
Qed.

(** Replacing the value of a present key leaves untouched whatever the old
    and the new value agree on. *)
Lemma map_dict_set_same {B : Type} (g : V -> B) k v v0 d :
  dict_get k d = Some v0 -> g v = g v0 ->
  map (fun e => g (snd e)) (dict_set k v d) = map (fun e => g (snd e)) d.
Proof.
  induction d as [|[k0 v1] d IH]; simpl; [discriminate|].
  destruct (String.eqb k k0); simpl.
  - intros [= ->] ->. reflexivity.
  - intros H1 H2. rewrite (IH H1 H2). reflexivity.
Qed.

Lemma NoDup_keys_dict_set k v d :
  NoDup (keys d) -> NoDup (keys (dict_set k v d)).
Proof.
  intros H. rewrite keys_dict_set.
  destruct (dict_contains k d) eqn:E; [exact H|].
  apply NoDup_app; [exact H | repeat constructor; simpl; tauto |].
  intros x Hx [<-|[]].
  apply dict_contains_keys in Hx. congruence.
Qed.

End DictFacts.

(** ** One call of [addChunk] *)

Section IngestionFacts.

Variable countTokens : string -> nat.

Lemma addFragment_unfold (f : Fragment) (self : DocumentStringBuilder) :
  addFragment countTokens f self =
  if overflows countTokens self f
  then (Raise OverflowError, self)
  else (Ok tt, committed countTokens self f).
Proof.
  destruct self as [mx tc docs]. destruct f as [id title hd c n].
  unfold addFragment, addChunk, overflows, committed, titleCost, headerCost,
    isNewDocument, isNewHeader, groupFor, documentFor, f_normalizedHeader,
    toChunk, addTokens, bind, get, put, ret, raise, lift_key; cbn.
  destruct (Z.of_nat (countTokens c + tc) >? mx)%Z; cbn; [reflexivity|].
  rewrite (dict_contains_get id docs).
  destruct (dict_get id docs) as [doc|] eqn:Hdoc; cbn.
  - rewrite Hdoc; cbn.
    rewrite (dict_contains_get (normalizeHeader hd) (headers doc)).
    destruct (dict_get (normalizeHeader hd) (headers doc)) as [grp|] eqn:Hgrp; cbn.
    + rewrite Hdoc; cbn. rewrite Hgrp; cbn.
      rewrite !Nat.add_0_r. reflexivity.
    + rewrite !dict_get_set_same; cbn. rewrite dict_get_set_same; cbn.
      rewrite !dict_set_set. unfold with_headers; cbn.
      rewrite ?dict_set_set, Nat.add_0_r. reflexivity.
  - rewrite !dict_get_set_same; cbn. rewrite ?dict_get_set_same; cbn.
    rewrite String.eqb_refl; cbn. rewrite ?String.eqb_refl; cbn.
    rewrite ?dict_set_set. reflexivity.
Qed.

Lemma tokenCount_committed (self : DocumentStringBuilder) (f : Fragment) :
  tokenCount (committed countTokens self f)
  = tokenCount self + incrementalCost countTokens self f.
Proof. unfold committed, incrementalCost; simpl. lia. Qed.

Lemma overflows_spec (self : DocumentStringBuilder) (f : Fragment) :
  overflows countTokens self f = true
  <-> (Z.of_nat (tokenCount self + countTokens (f_content f)) > maxTokens self)%Z.
Proof.
  unfold overflows. rewrite Z.gtb_gt, (Nat.add_comm (tokenCount self)).
  reflexivity.
Qed.

(** C2, as the code has it: a call that returns normally leaves [maxTokens]
    as it was and a token count that exceeds it by no more than the counts
    of the title and the header that this call saw for the first time. *)
Theorem accepted_chunk_budget (self self' : DocumentStringBuilder) (f : Fragment) :
  addFragment countTokens f self = (Ok tt, self') ->
  maxTokens self' = maxTokens self
  /\ (Z.of_nat (tokenCount self')
      <= maxTokens self
         + Z.of_nat (titleCost countTokens self f + headerCost countTokens self f))%Z.
Proof.
  rewrite addFragment_unfold.
  destruct (overflows countTokens self f) eqn:Hov; [discriminate|].
  intros [= <-]. split; [reflexivity|].
  rewrite tokenCount_committed. unfold incrementalCost.
  assert (Hle : ~ (Z.of_nat (tokenCount self + countTokens (f_content f))
                   > maxTokens self)%Z)
    by (intros H; apply overflows_spec in H; congruence).
  lia.
Qed.

(** C3: a call that raises [OverflowError] leaves the whole builder state
    (token count, documents with their insert orders and titles, headers and
    chunk lists) as it was before the call. *)
Theorem overflow_is_atomic (self self' : DocumentStringBuilder) (f : Fragment) :
  addFragment countTokens f self = (Raise OverflowError, self') ->
  self' = self.
Proof.
  rewrite addFragment_unfold.
  destruct (overflows countTokens self f); [|discriminate].
  intros [= <-]. reflexivity.
Qed.

(** On texts that the tokenizer counts, [OverflowError] is the only
    exception that [addChunk] raises. *)
Lemma addFragment_raises_only_overflow
    (self self' : DocumentStringBuilder) (f : Fragment) (e : Exn) :
  addFragment countTokens f self = (Raise e, self') ->
  e = OverflowError /\ self' = self.
Proof.
  rewrite addFragment_unfold.
  destruct (overflows countTokens self f); [|discriminate].
  intros [= <- <-]. split; reflexivity.
Qed.

End IngestionFacts.

(** C1 fails as stated: with a budget of 1 the full incremental cost of
    [oneTokenEach] is 3, yet the call returns normally. *)
Lemma full_cost_over_budget_is_accepted :
  ~ overflow_iff_full_cost charTokens (emptyBuilder 1) oneTokenEach.
Proof.
  unfold overflow_iff_full_cost. intros [_ H].
  assert (Hcost : (Z.of_nat (tokenCount (emptyBuilder 1)
                     + incrementalCost charTokens (emptyBuilder 1) oneTokenEach)
                   > maxTokens (emptyBuilder 1))%Z) by (vm_compute; reflexivity).
  specialize (H Hcost). vm_compute in H. discriminate.
Qed.

(** C2 fails as stated: the same call ends with 3 tokens counted against a
    budget of 1. *)
Lemma accepted_chunk_exceeds_budget :
  (0 < 1)%Z /\ ~ within_budget_after charTokens (emptyBuilder 1) oneTokenEach.
Proof.
  split; [lia|]. unfold within_budget_after. intros H.
  assert (Hok : fst (addFragment charTokens oneTokenEach (emptyBuilder 1)) = Ok tt)
    by (vm_compute; reflexivity).
  specialize (H Hok). vm_compute in H. apply H. reflexivity.
Qed.

(** The bound of [accepted_chunk_budget] at that call: 3 tokens, a budget
    of 1, and 2 tokens of first-seen title and header. *)
Lemma accepted_chunk_budget_witness :
  (Z.of_nat (tokenCount (committed charTokens (emptyBuilder 1) oneTokenEach))
   <= 1 + Z.of_nat (titleCost charTokens (emptyBuilder 1) oneTokenEach
                    + headerCost charTokens (emptyBuilder 1) oneTokenEach))%Z.
Proof.
  apply (accepted_chunk_budget charTokens (emptyBuilder 1)
           (committed charTokens (emptyBuilder 1) oneTokenEach) oneTokenEach).
  vm_compute. reflexivity.
Defined.

(** With a budget of 0 the same fragment is refused and the builder is
    still the empty one. *)
Lemma overflow_is_atomic_witness :
  snd (addFragment charTokens oneTokenEach (emptyBuilder 0)) = emptyBuilder 0.
Proof.
  apply (overflow_is_atomic charTokens (emptyBuilder 0) _ oneTokenEach).
  vm_compute. reflexivity.
Defined.

(** ** Construction *)

(** C9 fails as stated: a budget of -5 is taken as it is. *)
Lemma init_accepts_negative_budget :
  (-5 <= 0)%Z /\ ~ construction_fails (-5).
Proof.
  split; [lia|]. intros [e H]. discriminate H.
Qed.

(** C9, as the code has it: [__init__] checks nothing; for every integer
    budget, positive or not, it returns a builder that stores the budget
    unchanged, with a token count of 0 and no documents. *)
Theorem init_always_succeeds (m : Z) :
  exists self, init m = Ok self
    /\ maxTokens self = m /\ tokenCount self = 0 /\ documents self = [].
Proof.
  exists (emptyBuilder m). repeat split.
Qed.


(** ** [sorted] *)

Section SortedFacts.
Context {A : Type} (key : A -> Z).

Lemma insert_by_perm (x : A) (l : list A) :
  Permutation (insert_by key x l) (x :: l).
Proof.
  induction l as [|y l IH]; simpl; [reflexivity|].
  destruct (key x <=? key y)%Z; [reflexivity|].
  rewrite IH. apply perm_swap.
Qed.

Lemma sorted_perm (l : list A) : Permutation (sorted key l) l.
Proof.
  induction l as [|x l IH]; simpl; [reflexivity|].
  rewrite insert_by_perm. now constructor.
Qed.

Lemma insert_by_sorted (x : A) (l : list A) :
  StronglySorted (key_le key) l -> StronglySorted (key_le key) (insert_by key x l).
Proof.
  induction l as [|y l IH]; simpl; intros Hs.
  - repeat constructor.
  - inversion Hs as [|? ? Hl Hy]; subst.
    destruct (Z.leb_spec (key x) (key y)) as [Hle|Hgt].
    + constructor; [exact Hs|]. constructor; [exact Hle|].
      eapply Forall_impl; [|exact Hy]. unfold key_le. intros; lia.
    + constructor; [exact (IH Hl)|].
      eapply Permutation_Forall; [symmetry; apply insert_by_perm|].
      constructor; [unfold key_le; lia | exact Hy].
Qed.

Lemma sorted_sorted (l : list A) : StronglySorted (key_le key) (sorted key l).
Proof.
  induction l as [|x l IH]; simpl; [constructor|].
  now apply insert_by_sorted.
Qed.

(** A list that is in order already comes back as it is. *)
Lemma sorted_id (l : list A) : StronglySorted (key_le key) l -> sorted key l = l.
Proof.
  induction l as [|x l IH]; simpl; intros Hs; [reflexivity|].
  inversion Hs as [|? ? Hl Hx]; subst. rewrite (IH Hl).
  destruct l as [|y l]; simpl; [reflexivity|].
  inversion Hx as [|? ? Hxy _]; subst. unfold key_le in Hxy.
  destruct (Z.leb_spec (key x) (key y)); [reflexivity | lia].
Qed.

(** Sorting the pairs of computed keys and elements, as [sortedR] does, is
    sorting the elements by the key function. *)
Lemma insert_by_decorated (x : A) (ps : list (Z * A)) :
  Forall (fun p => fst p = key (snd p)) ps ->
  map snd (insert_by fst (key x, x) ps) = insert_by key x (map snd ps)
  /\ Forall (fun p => fst p = key (snd p)) (insert_by fst (key x, x) ps).
Proof.
  induction ps as [|[k y] ps IH]; simpl; intros Hf.
  - split; [reflexivity | repeat constructor].
  - inversion Hf as [|? ? Hk Hps]; subst. simpl in Hk. subst k.
    destruct (key x <=? key y)%Z; simpl.
    + split; [reflexivity|]. constructor; [reflexivity | exact Hf].
    + destruct (IH Hps) as [IH1 IH2]. rewrite IH1.
      split; [reflexivity|]. constructor; [reflexivity | exact IH2].
Qed.

Lemma sorted_decorated (l : list A) :
  map snd (sorted fst (combine (map key l) l)) = sorted key l
  /\ Forall (fun p => fst p = key (snd p)) (sorted fst (combine (map key l) l)).
Proof.
  induction l as [|x l [IH1 IH2]]; simpl.
  - split; [reflexivity | constructor].
  - destruct (insert_by_decorated x _ IH2) as [H1 H2].
    rewrite H1, IH1. split; [reflexivity | exact H2].
Qed.

End SortedFacts.

Lemma mapR_total {A B : Type} (f : A -> result B) (g : A -> B) (l : list A) :
  (forall a, In a l -> f a = Ok (g a)) -> mapR f l = Ok (map g l).
Proof.
  induction l as [|x l IH]; simpl; intros H; [reflexivity|].
  rewrite (H x (or_introl eq_refl)); simpl.
  rewrite IH; [reflexivity|]. intros a Ha. apply H. now right.
Qed.

Lemma sortedR_total {A : Type} (keyR : A -> result Z) (key : A -> Z) (l : list A) :
  (forall a, In a l -> keyR a = Ok (key a)) -> sortedR keyR l = Ok (sorted key l).
Proof.
  intros H. unfold sortedR. rewrite (mapR_total keyR key l H); simpl.
  now rewrite (proj1 (sorted_decorated key l)).
Qed.

(** ** The lines of one header *)

(** The test [header != ''] compares a dictionary with a string, so it
    holds for every header entry, the one of the empty header included. *)
Lemma header_entry_ne_string (hdr : HeaderGroup) (s : string) :
  py_ne (PyDict hdr) (PyStr s) = true.
Proof. reflexivity. Qed.

Lemma headerLines_unfold (hdr : HeaderGroup) :
  headerLines hdr
  = (header hdr ++ ":")%string :: chunkLines 0 (sorted chunkNumber (chunks hdr)).
Proof. reflexivity. Qed.

(** One step of the inner loop: the marker line comes before a chunk
    exactly when the previous number is not 0 and the chunk's number is not
    the previous one plus 1. *)
Lemma chunkLines_cons (previous : Z) (chunk : Chunk) (cs : list Chunk) :
  chunkLines previous (chunk :: cs)
  = (if negb (previous =? 0)%Z && negb (chunkNumber chunk =? previous + 1)%Z
     then ["..."] else [])
    ++ content chunk :: chunkLines (chunkNumber chunk) cs.
Proof. reflexivity. Qed.

Lemma chunkLines_gap (previous : Z) (chunk : Chunk) (cs : list Chunk) :
  previous <> 0%Z -> chunkNumber chunk <> (previous + 1)%Z ->
  chunkLines previous (chunk :: cs)
  = "..." :: content chunk :: chunkLines (chunkNumber chunk) cs.
Proof.
  intros H0 H1. rewrite chunkLines_cons.
  destruct (Z.eqb_spec previous 0); [contradiction|].
  destruct (Z.eqb_spec (chunkNumber chunk) (previous + 1)); [contradiction|].
  reflexivity.
Qed.

Lemma chunkLines_consecutive (previous : Z) (chunk : Chunk) (cs : list Chunk) :
  chunkNumber chunk = (previous + 1)%Z ->
  chunkLines previous (chunk :: cs)
  = content chunk :: chunkLines (chunkNumber chunk) cs.
Proof.
  intros H1. rewrite chunkLines_cons, H1, Z.eqb_refl, andb_false_r.
  reflexivity.
Qed.

(** After a chunk numbered 0 no marker line is printed, whatever number
    comes next. *)
Lemma chunkLines_after_zero (chunk : Chunk) (cs : list Chunk) :
  chunkLines 0 (chunk :: cs) = content chunk :: chunkLines (chunkNumber chunk) cs.
Proof. reflexivity. Qed.

(** The example of the specification: numbers 3, 4, 7. *)
Lemma chunkLines_3_4_7 (a b c : string) :
  chunkLines 0 (sorted chunkNumber [mkChunk c 7; mkChunk a 3; mkChunk b 4])
  = [a; b; "..."; c].
Proof. reflexivity. Qed.

(** C4 at a failing input: for one fragment with no header, the lines that
    [__str__] collects are the title line, a line that holds only a colon,
    the content, and the empty line that ends the document. *)
Theorem no_header_group_prints_colon_line :
  lines asciiUpper (snd (addFragment charTokens noHeaderFragment (emptyBuilder 10)))
  = Ok [ ("From document " ++ dquote ++ "T" ++ dquote ++ ":")%string;
         ":"; "c"; EmptyString ].
Proof. vm_compute. reflexivity. Qed.

(** C5 at a failing input: chunks 0 and 2 of one header are printed one
    after the other with no marker line between them. *)
Theorem no_ellipsis_after_chunk_zero :
  lines asciiUpper (fst (addChunks charTokens [chunkZero; chunkTwo] (emptyBuilder 10)))
  = Ok [ ("From document " ++ dquote ++ "T" ++ dquote ++ ":")%string;
         "h:"; "a"; "b"; EmptyString ].
Proof. vm_compute. reflexivity. Qed.

(** ** What a builder holds after the fragments it has accepted *)

Lemma dict_contains_mem {V : Type} (k : string) (d : dict V) :
  dict_contains k d = mem k (keys d).
Proof.
  induction d as [|[k' v] d IH]; simpl; [reflexivity|].
  destruct (String.eqb k k'); [reflexivity | exact IH].
Qed.

Lemma length_dict_set {V : Type} (k : string) (v : V) (d : dict V) :
  List.length (dict_set k v d)
  = if dict_contains k d then List.length d else S (List.length d).
Proof.
  induction d as [|[k' v'] d IH]; simpl; [reflexivity|].
  destruct (String.eqb k k'); simpl; [reflexivity|].
  rewrite IH. destruct (dict_contains k d); reflexivity.
Qed.

Lemma firstSeen_snoc (seen ids : list string) (i : string) :
  firstSeen seen (ids ++ [i])
  = if mem i (firstSeen seen ids)
    then firstSeen seen ids
    else firstSeen seen ids ++ [i].
Proof.
  revert seen. induction ids as [|j ids IH]; intros seen; simpl.
  - reflexivity.
  - apply IH.
Qed.

Section Consistency.

Variable countTokens : string -> nat.

Lemma chunks_groupFor (self : DocumentStringBuilder) (f : Fragment) :
  chunks (groupFor self f)
  = chunksOf self (f_documentId f) (f_normalizedHeader f).
Proof.
  unfold groupFor, documentFor, chunksOf.
  destruct (dict_get (f_documentId f) (documents self)) as [doc|]; simpl.
  - destruct (dict_get (f_normalizedHeader f) (headers doc)); reflexivity.
  - reflexivity.
Qed.

Lemma chunksOf_committed (self : DocumentStringBuilder) (f : Fragment)
    (id h : string) :
  chunksOf (committed countTokens self f) id h
  = chunksOf self id h ++ (if belongs id h f then [toChunk f] else []).
Proof.
  unfold chunksOf at 1. unfold committed; simpl.
  rewrite dict_get_set. unfold belongs.
  rewrite (String.eqb_sym (f_documentId f) id).
  destruct (String.eqb_spec id (f_documentId f)) as [->|Hid]; simpl.
  - rewrite dict_get_set.
    rewrite (String.eqb_sym (f_normalizedHeader f) h).
    destruct (String.eqb_spec h (f_normalizedHeader f)) as [->|Hh]; simpl.
    + now rewrite chunks_groupFor.
    + rewrite app_nil_r. unfold chunksOf, documentFor.
      destruct (dict_get (f_documentId f) (documents self)); reflexivity.
  - now rewrite app_nil_r.
Qed.

Lemma consistent_empty (m : Z) : consistent [] (emptyBuilder m).
Proof.
  constructor; simpl; try reflexivity; try constructor; intros; contradiction.
Qed.

Lemma documentFor_cases (self : DocumentStringBuilder) (f : Fragment) :
  (dict_get (f_documentId f) (documents self) = Some (documentFor self f))
  \/ (dict_get (f_documentId f) (documents self) = None
      /\ documentFor self f
         = mkDocument (f_documentTitle f) (List.length (documents self)) []).
Proof.
  unfold documentFor.
  destruct (dict_get (f_documentId f) (documents self)); [left | right]; auto.
Qed.

Lemma consistent_committed (pre : list Fragment) (self : DocumentStringBuilder)
    (f : Fragment) :
  consistent pre self -> consistent (pre ++ [f]) (committed countTokens self f).
Proof.
  intros [Hkeys Hfirst Horder Hhkeys Hne Hchunks].
  assert (Hdoc' : forall h grp,
             In (h, grp) (headers (documentFor self f)) ->
             In (f_documentId f, documentFor self f) (documents self)).
  { intros h grp Hin.
    destruct (documentFor_cases self f) as [Hd|[_ Hd]].
    - now apply dict_get_In.
    - rewrite Hd in Hin. contradiction. }
  assert (Hnd' : NoDup (keys (headers (documentFor self f)))).
  { destruct (documentFor_cases self f) as [Hd|[_ Hd]].
    - apply dict_get_In in Hd. exact (Hhkeys _ _ Hd).
    - rewrite Hd. constructor. }
  constructor.
  - apply NoDup_keys_dict_set. exact Hkeys.
  - unfold committed; simpl. rewrite keys_dict_set, map_app; simpl.
    rewrite firstSeen_snoc, <- Hfirst, <- dict_contains_mem. reflexivity.
  - unfold committed; simpl. rewrite length_dict_set.
    destruct (documentFor_cases self f) as [Hd|[Hd Hnew]].
    + rewrite (dict_contains_get _ (documents self)), Hd.
      rewrite (map_dict_set_same insertOrder _ _ _ _ Hd); [exact Horder|].
      reflexivity.
    + rewrite (dict_contains_get _ (documents self)), Hd.
      rewrite dict_set_new by (now rewrite dict_contains_get, Hd).
      rewrite map_app, Horder, seq_S; simpl. rewrite Hnew. reflexivity.
  - intros id doc Hin. unfold committed in Hin; simpl in Hin.
    apply In_dict_set in Hin. destruct Hin as [[-> ->]|Hin].
    + simpl. apply NoDup_keys_dict_set. exact Hnd'.
    + exact (Hhkeys _ _ Hin).
  - intros id doc h grp Hin Hg. unfold committed in Hin; simpl in Hin.
    apply In_dict_set in Hin. destruct Hin as [[-> ->]|Hin].
    + simpl in Hg. apply In_dict_set in Hg. destruct Hg as [[-> ->]|Hg].
      * simpl. intros E. apply app_eq_nil in E. destruct E; discriminate.
      * exact (Hne _ _ _ _ (Hdoc' _ _ Hg) Hg).
    + exact (Hne _ _ _ _ Hin Hg).
  - intros id h. rewrite chunksOf_committed, Hchunks, filter_app, map_app.
    simpl. destruct (belongs id h f); reflexivity.
Qed.

Lemma addFragment_consistent (pre : list Fragment)
    (self self' : DocumentStringBuilder) (f : Fragment) :
  consistent pre self ->
  addFragment countTokens f self = (Ok tt, self') ->
  self' = committed countTokens self f /\ consistent (pre ++ [f]) self'.
Proof.
  intros Hc. rewrite addFragment_unfold.
  destruct (overflows countTokens self f); [discriminate|].
  intros [= <-]. split; [reflexivity | now apply consistent_committed].
Qed.

Lemma addChunks_consistent (fs pre : list Fragment)
    (self final : DocumentStringBuilder) (accepted : list Fragment) :
  consistent pre self ->
  addChunks countTokens fs self = (final, accepted) ->
  consistent (pre ++ accepted) final.
Proof.
  revert pre self final accepted.
  induction fs as [|f fs IH]; intros pre self final accepted Hc; simpl.
  - intros [= <- <-]. now rewrite app_nil_r.
  - destruct (addFragment countTokens f self) as [[[]|e] self'] eqn:Hadd.
    + destruct (addFragment_consistent _ _ _ _ Hc Hadd) as [_ Hc'].
      destruct (addChunks countTokens fs self') as [final' acc'] eqn:Hrun.
      intros [= <- <-].
      specialize (IH _ _ _ _ Hc' Hrun).
      now rewrite <- app_assoc in IH.
    + destruct (addFragment_raises_only_overflow _ _ _ _ _ Hadd) as [_ ->].
      intros Hrun. exact (IH _ _ _ _ Hc Hrun).
Qed.

Lemma addChunks_from_empty (m : Z) (fs : list Fragment)
    (final : DocumentStringBuilder) (accepted : list Fragment) :
  addChunks countTokens fs (emptyBuilder m) = (final, accepted) ->
  consistent accepted final.
Proof.
  intros Hrun.
  exact (addChunks_consistent fs [] _ _ _ (consistent_empty m) Hrun).
Qed.

End Consistency.

(** ** The token count after a run of calls *)

Lemma mem_firstSeen (i : string) (seen ids : list string) :
  mem i (firstSeen seen ids) = mem i seen || mem i ids.
Proof.
  revert seen. induction ids as [|j ids IH]; intros seen; simpl.
  - now rewrite orb_false_r.
  - rewrite IH. unfold mem.
    destruct (existsb (String.eqb j) seen) eqn:Hj.
    + destruct (String.eqb_spec i j) as [->|Hij]; simpl.
      * rewrite Hj. reflexivity.
      * reflexivity.
    + rewrite existsb_app; simpl. rewrite orb_false_r, orb_assoc. reflexivity.
Qed.

Lemma mem_map_documentId (id : string) (fs : list Fragment) :
  mem id (map f_documentId fs) = existsb (fromDocument id) fs.
Proof.
  unfold mem, fromDocument. induction fs as [|f fs IH]; simpl; [reflexivity|].
  now rewrite IH, (String.eqb_sym id).
Qed.

Lemma filter_nil_existsb {A : Type} (p : A -> bool) (l : list A) :
  filter p l = [] <-> existsb p l = false.
Proof.
  induction l as [|x l IH]; simpl; [tauto|].
  destruct (p x); simpl; [split; discriminate | exact IH].
Qed.

Section TokenTotal.

Variable countTokens : string -> nat.

Lemma isNewDocument_consistent (pre : list Fragment)
    (self : DocumentStringBuilder) (f : Fragment) :
  consistent pre self ->
  isNewDocument self f = negb (existsb (sameDocument f) pre).
Proof.
  intros Hc. unfold isNewDocument, sameDocument.
  rewrite dict_contains_mem, (c_first _ _ Hc), mem_firstSeen; simpl.
  now rewrite mem_map_documentId.
Qed.

Lemma isNewHeader_chunksOf (pre : list Fragment)
    (self : DocumentStringBuilder) (f : Fragment) :
  consistent pre self ->
  isNewHeader self f = true
  <-> chunksOf self (f_documentId f) (f_normalizedHeader f) = [].
Proof.
  intros Hc. unfold isNewHeader, chunksOf.
  destruct (dict_get (f_documentId f) (documents self)) as [doc|] eqn:Hd;
    [|tauto].
  rewrite dict_contains_get.
  destruct (dict_get (f_normalizedHeader f) (headers doc)) as [grp|] eqn:Hg;
    simpl; [|tauto].
  split; [discriminate|]. intros E. exfalso.
  exact (c_nonempty _ _ Hc _ _ _ _ (dict_get_In _ _ _ Hd) (dict_get_In _ _ _ Hg) E).
Qed.

Lemma isNewHeader_consistent (pre : list Fragment)
    (self : DocumentStringBuilder) (f : Fragment) :
  consistent pre self ->
  isNewHeader self f = negb (existsb (sameGroup f) pre).
Proof.
  intros Hc. pose proof (isNewHeader_chunksOf pre self f Hc) as H.
  rewrite (c_chunks _ _ Hc) in H. unfold sameGroup.
  destruct (existsb (belongs (f_documentId f) (f_normalizedHeader f)) pre) eqn:E;
    simpl.
  - destruct (isNewHeader self f); [|reflexivity].
    assert (Hnil : filter (belongs (f_documentId f) (f_normalizedHeader f)) pre = []).
    { destruct H as [H _]. specialize (H eq_refl).
      now apply map_eq_nil in H. }
    apply filter_nil_existsb in Hnil. congruence.
  - apply H. apply filter_nil_existsb in E. now rewrite E.
Qed.

(** The count grows by the first-seen cost of every accepted fragment. *)
Lemma tokenCount_addChunks (fs pre : list Fragment)
    (self final : DocumentStringBuilder) (accepted : list Fragment) :
  consistent pre self ->
  addChunks countTokens fs self = (final, accepted) ->
  tokenCount final
  = tokenCount self
    + sumTokens countTokens f_content accepted
    + sumTokens countTokens f_documentTitle
        (firstOccurrences sameDocument pre accepted)
    + sumTokens countTokens f_normalizedHeader
        (firstOccurrences sameGroup pre accepted).
Proof.
  revert pre self final accepted.
  induction fs as [|f fs IH]; intros pre self final accepted Hc; simpl.
  - intros [= <- <-]. unfold sumTokens; simpl. lia.
  - destruct (addFragment countTokens f self) as [[[]|e] self'] eqn:Hadd.
    + destruct (addFragment_consistent _ _ _ _ _ Hc Hadd) as [Hself' Hc'].
      destruct (addChunks countTokens fs self') as [final' acc'] eqn:Hrun.
      intros [= <- <-].
      rewrite (IH _ _ _ _ Hc' Hrun), Hself', tokenCount_committed.
      unfold incrementalCost, titleCost, headerCost.
      rewrite (isNewDocument_consistent _ _ _ Hc),
        (isNewHeader_consistent _ _ _ Hc).
      simpl firstOccurrences.
      destruct (existsb (sameDocument f) pre), (existsb (sameGroup f) pre);
        unfold sumTokens; simpl; lia.
    + destruct (addFragment_raises_only_overflow _ _ _ _ _ Hadd) as [_ ->].
      intros Hrun. exact (IH _ _ _ _ Hc Hrun).
Qed.

(** C8: when every call of a run from a fresh builder returns normally (the
    accepted fragments are all the fragments), the final token count is the
    sum of the counts of every content, of the title once for each distinct
    document, and of the normalized header once for each distinct pair of
    document and normalized header. *)
Theorem tokenCount_all_accepted (m : Z) (fs : list Fragment)
    (final : DocumentStringBuilder) :
  addChunks countTokens fs (emptyBuilder m) = (final, fs) ->
  tokenCount final = expectedTokens countTokens fs.
Proof.
  intros Hrun.
  rewrite (tokenCount_addChunks fs [] _ _ _ (consistent_empty m) Hrun).
  unfold expectedTokens; simpl. lia.
Qed.

End TokenTotal.

(** Three accepted fragments of two documents with one header each: the
    count is 3 contents, 2 titles and 2 headers. *)
Lemma tokenCount_all_accepted_witness :
  tokenCount (fst (addChunks charTokens interleaved (emptyBuilder 100)))
  = expectedTokens charTokens interleaved.
Proof.
  apply (tokenCount_all_accepted charTokens 100 interleaved).
  vm_compute. reflexivity.
Defined.

(** ** The order of the documents *)



Lemma firstSeen_prefix (seen ids : list string) :
  exists rest, firstSeen seen ids = seen ++ rest.
Proof.
  revert seen. induction ids as [|i ids IH]; intros seen; simpl.
  - exists []. now rewrite app_nil_r.
  - destruct (mem i seen).
    + apply IH.
    + destruct (IH (seen ++ [i])) as [rest ->].
      exists (i :: rest). now rewrite <- app_assoc.
Qed.




Lemma seq_sorted {A : Type} (f : A -> nat) (l : list A) (a : nat) :
  map f l = seq a (List.length l) ->
  StronglySorted (key_le (fun x => Z.of_nat (f x))) l.
Proof.
  revert a. induction l as [|x l IH]; intros a; simpl; [constructor|].
  intros [= Hx Hl]. constructor; [exact (IH _ Hl)|].
  apply Forall_forall. intros y Hy. unfold key_le.
  assert (Hin : In (f y) (seq (S a) (List.length l)))
    by (rewrite <- Hl; now apply in_map).
  apply in_seq in Hin. lia.
Qed.

Section DocumentOrder.

Variable countTokens : string -> nat.
Variable upper : string -> string.

(** Documents are stored in the order of their [insertOrder], so sorting
    them by it changes nothing. *)
Lemma sortedDocuments_consistent (pre : list Fragment)
    (self : DocumentStringBuilder) :
  consistent pre self -> sortedDocuments self = documents self.
Proof.
  intros Hc. unfold sortedDocuments. apply sorted_id.
  apply (seq_sorted (fun e => insertOrder (snd e)) _ 0). exact (c_order _ _ Hc).
Qed.

Lemma sortedHeaders_consistent (pre : list Fragment)
    (self : DocumentStringBuilder) (id : string) (doc : Document) :
  consistent pre self -> In (id, doc) (documents self) ->
  sortedHeaders doc = Ok (sorted headKey (headers doc)).
Proof.
  intros Hc Hin. unfold sortedHeaders. apply sortedR_total.
  intros [h grp] Hg. unfold firstChunkNumber, headKey; simpl.
  pose proof (c_nonempty _ _ Hc _ _ _ _ Hin Hg) as Hne.
  destruct (chunks grp); [contradiction | reflexivity].
Qed.

Lemma documentLines_consistent (pre : list Fragment)
    (self : DocumentStringBuilder) (id : string) (doc : Document) :
  consistent pre self -> In (id, doc) (documents self) ->
  documentLines upper id doc = Ok (documentBlock upper (id, doc)).
Proof.
  intros Hc Hin. unfold documentLines.
  rewrite (sortedHeaders_consistent _ _ _ _ Hc Hin). reflexivity.
Qed.

(** [__str__] raises nothing on a builder that holds what calls of
    [addChunk] that returned normally have put there, and prints its
    documents in stored order. *)
Lemma lines_consistent (pre : list Fragment) (self : DocumentStringBuilder) :
  consistent pre self ->
  lines upper self = Ok (List.concat (map (documentBlock upper) (documents self))).
Proof.
  intros Hc. unfold lines. rewrite (sortedDocuments_consistent _ _ Hc).
  rewrite (mapR_total _ (documentBlock upper)); [reflexivity|].
  intros [id doc] Hin. simpl. exact (documentLines_consistent _ _ _ _ Hc Hin).
Qed.


End DocumentOrder.


(** ** The order of the headers of a document *)


Section HeaderOrder.

Variable countTokens : string -> nat.
Variable upper : string -> string.



End HeaderOrder.


(** The order is neither that of the lowest sequence numbers, nor that of
    header insertion, nor the alphabet: header [b], whose first-arriving
    fragment has number 5, is printed before header [a], whose
    first-arriving fragment has number 9 and whose lowest number is 1. *)
Lemma twoHeaders_lines :
  lines asciiUpper (fst (addChunks charTokens twoHeaders (emptyBuilder 100)))
  = Ok [ ("From document " ++ dquote ++ "T" ++ dquote ++ ":")%string;
         "b:"; "y"; "a:"; "z"; "..."; "x"; EmptyString ].
Proof. vm_compute. reflexivity. Qed.

(** ** No deduplication *)

Lemma count_occ_cons_le (s x : string) (l : list string) :
  count_occ string_dec l s <= count_occ string_dec (x :: l) s.
Proof. simpl. destruct (string_dec x s); lia. Qed.

Lemma count_occ_chunkLines (s : string) (cs : list Chunk) (previous : Z) :
  count_occ string_dec (map content cs) s
  <= count_occ string_dec (chunkLines previous cs) s.
Proof.
  revert previous. induction cs as [|c cs IH]; intros previous; [simpl; lia|].
  rewrite chunkLines_cons, count_occ_app. simpl map.
  specialize (IH (chunkNumber c)). simpl count_occ at 1 3.
  destruct (string_dec (content c) s); lia.
Qed.

Lemma count_occ_concat_In (s : string) (l : list string) (ls : list (list string)) :
  In l ls ->
  count_occ string_dec l s <= count_occ string_dec (List.concat ls) s.
Proof.
  induction ls as [|l' ls IH]; simpl; [tauto|].
  rewrite count_occ_app. intros [->|H]; [lia|]. specialize (IH H). lia.
Qed.

Lemma count_occ_headerLines (s : string) (hdr : HeaderGroup) :
  count_occ string_dec (map content (chunks hdr)) s
  <= count_occ string_dec (headerLines hdr) s.
Proof.
  rewrite headerLines_unfold.
  assert (Hperm : Permutation (map content (sorted chunkNumber (chunks hdr)))
                    (map content (chunks hdr)))
    by (apply Permutation_map, sorted_perm).
  rewrite <- (proj1 (Permutation_count_occ string_dec _ _) Hperm s).
  etransitivity; [|apply count_occ_cons_le].
  apply count_occ_chunkLines.
Qed.

Lemma count_occ_documentBlock (upper : string -> string) (s : string)
    (e : string * Document) (h : string) (grp : HeaderGroup) :
  In (h, grp) (headers (snd e)) ->
  count_occ string_dec (map content (chunks grp)) s
  <= count_occ string_dec (documentBlock upper e) s.
Proof.
  intros Hin. unfold documentBlock.
  assert (Hin' : In (headerLines grp)
                   (map (fun h => headerLines (snd h))
                        (sorted headKey (headers (snd e))))).
  { apply (in_map (fun h => headerLines (snd h)) _ (h, grp)).
    apply (Permutation_in _ (Permutation_sym (sorted_perm headKey _)) Hin). }
  pose proof (count_occ_concat_In s _ _ Hin') as H1.
  pose proof (count_occ_headerLines s grp) as H2.
  etransitivity; [|apply count_occ_cons_le]. rewrite count_occ_app. lia.
Qed.

Section NoDeduplication.

Variable countTokens : string -> nat.
Variable upper : string -> string.

Lemma belongs_own (f : Fragment) :
  belongs (f_documentId f) (f_normalizedHeader f) f = true.
Proof. unfold belongs. now rewrite !String.eqb_refl. Qed.

(** Once a fragment is in, its document and its header are not new. *)
Lemma not_new_after_committed (self : DocumentStringBuilder) (f : Fragment) :
  isNewDocument (committed countTokens self f) f = false
  /\ isNewHeader (committed countTokens self f) f = false.
Proof.
  unfold isNewDocument, isNewHeader, committed; simpl.
  rewrite dict_contains_get, dict_get_set_same; simpl.
  rewrite dict_contains_get, dict_get_set_same. split; reflexivity.
Qed.

(** Every content stored under a header is among the printed lines at least
    as often as it is stored. *)
Lemma count_occ_lines (pre : list Fragment) (self : DocumentStringBuilder)
    (id h : string) (s : string) :
  consistent pre self ->
  exists ls,
    lines upper self = Ok ls
    /\ count_occ string_dec (map content (chunksOf self id h)) s
       <= count_occ string_dec ls s.
Proof.
  intros Hc. exists (List.concat (map (documentBlock upper) (documents self))).
  split; [exact (lines_consistent upper _ _ Hc)|].
  unfold chunksOf.
  destruct (dict_get id (documents self)) as [doc|] eqn:Hd; [|simpl; lia].
  destruct (dict_get h (headers doc)) as [grp|] eqn:Hg; [|simpl; lia].
  apply dict_get_In in Hd. apply dict_get_In in Hg.
  etransitivity; [exact (count_occ_documentBlock upper s (id, doc) h grp Hg)|].
  apply count_occ_concat_In.
  exact (in_map (documentBlock upper) _ _ Hd).
Qed.

End NoDeduplication.

(** ** [chunksToText] *)

Section ChunksToText.

Variable countTokens : string -> nat.
Variable upper : string -> string.

(** On texts that the tokenizer counts, the loop of [chunksToText] raises
    nothing: it adds the fragments up to the first one that overflows, and
    stops there. *)
Lemma feed_accepts_prefix (fs : list Fragment) (self : DocumentStringBuilder) :
  exists acc rest,
    fs = acc ++ rest
    /\ addChunks countTokens acc self = (fst (addChunks countTokens acc self), acc)
    /\ feed countTokens fs self = (Ok tt, fst (addChunks countTokens acc self))
    /\ match rest with
       | [] => True
       | f :: _ =>
           overflows countTokens (fst (addChunks countTokens acc self)) f = true
       end.
Proof.
  revert self. induction fs as [|f fs IH]; intros self.
  - exists [], []. repeat split.
  - simpl feed. rewrite addFragment_unfold.
    destruct (overflows countTokens self f) eqn:Hov.
    + exists [], (f :: fs). repeat split. exact Hov.
    + destruct (IH (committed countTokens self f))
        as [acc [rest [Hfs [Hacc [Hfeed Hrest]]]]].
      exists (f :: acc), rest.
      assert (Hrun : addChunks countTokens (f :: acc) self
                     = (fst (addChunks countTokens acc (committed countTokens self f)),
                        f :: acc)).
      { simpl. rewrite addFragment_unfold, Hov, Hacc. reflexivity. }
      rewrite Hrun. simpl fst.
      repeat split; [now rewrite Hfs | exact Hfeed | exact Hrest].
Qed.

(** On texts that the tokenizer counts, [chunksToText] returns a string
    for every list of fragments and every budget. *)
Lemma chunksToText_returns (fs : list Fragment) (m : Z) :
  exists s, chunksToText countTokens upper fs m = Ok s.
Proof.
  unfold chunksToText, init; simpl.
  destruct (feed_accepts_prefix fs (mkBuilder m 0 []))
    as [acc [rest [_ [Hacc [Hfeed _]]]]].
  rewrite Hfeed. unfold str.
  rewrite (lines_consistent upper acc _
             (addChunks_from_empty countTokens m acc _ _ Hacc)).
  simpl. eexists. reflexivity.
Qed.

End ChunksToText.

(** With a budget of 2 the first two fragments are taken, the third
    overflows and ends the loop, and the fourth, whose empty content would
    still fit, is never tried; only the first two are printed. *)
Lemma chunksToText_stops_at_overflow :
  chunksToText charTokens asciiUpper
    [ mkFragment "1" EmptyString None "a" 1;
      mkFragment "1" EmptyString None "b" 2;
      mkFragment "1" EmptyString None "c" 3;
      mkFragment "1" EmptyString None EmptyString 4 ] 2
  = Ok (String.concat newline
          [ ("From document " ++ dquote ++ dquote ++ ":")%string;
            ":"; "a"; "b"; EmptyString ]).
Proof. vm_compute. reflexivity. Qed.

(** * Further properties of the builder *)

(** ** What [addChunk] keeps *)



Section Keeping.

Variable countTokens : string -> nat.

(** X2: a call that returns normally puts the chunk at the end of the chunk
    list of its own document and normalized header, and leaves the chunk
    list of every other document and header as it was. *)
Theorem addChunk_appends_to_own_group (self self' : DocumentStringBuilder)
    (f : Fragment) (id h : string) :
  addFragment countTokens f self = (Ok tt, self') ->
  chunksOf self' id h
  = chunksOf self id h ++ (if belongs id h f then [toChunk f] else []).
Proof.
  rewrite addFragment_unfold.
  destruct (overflows countTokens self f); [discriminate|].
  intros [= <-]. apply chunksOf_committed.
Qed.

Lemma committed_keeps_document (self : DocumentStringBuilder) (f : Fragment)
    (id : string) (doc : Document) :
  dict_get id (documents self) = Some doc ->
  exists doc',
    dict_get id (documents (committed countTokens self f)) = Some doc'
    /\ documentTitle doc' = documentTitle doc
    /\ insertOrder doc' = insertOrder doc.
Proof.
  intros Hget. unfold committed; simpl. rewrite dict_get_set.
  destruct (String.eqb_spec id (f_documentId f)) as [->|Hne].
  - eexists. split; [reflexivity|]. unfold documentFor. rewrite Hget.
    split; reflexivity.
  - exists doc. auto.
Qed.

Lemma addFragment_keeps (self self' : DocumentStringBuilder) (f : Fragment)
    (r : result unit) :
  addFragment countTokens f self = (r, self') ->
  maxTokens self' = maxTokens self
  /\ tokenCount self <= tokenCount self'
  /\ forall id doc,
       dict_get id (documents self) = Some doc ->
       exists doc',
         dict_get id (documents self') = Some doc'
         /\ documentTitle doc' = documentTitle doc
         /\ insertOrder doc' = insertOrder doc.
Proof.
  rewrite addFragment_unfold.
  destruct (overflows countTokens self f); intros [= <- <-].
  - repeat split; [lia|]. intros id doc H. exists doc. auto.
  - repeat split; [simpl; lia|]. intros id doc H.
    exact (committed_keeps_document self f id doc H).
Qed.

(** X3: over any run of calls, from any state, the budget stays what it
    was, the token count never goes down, and a document that is in the
    builder stays in it with the title and the insert order it has; a later
    fragment with the same identifier and another title changes nothing. *)
Theorem run_keeps_documents (fs : list Fragment)
    (self final : DocumentStringBuilder) (accepted : list Fragment) :
  addChunks countTokens fs self = (final, accepted) ->
  maxTokens final = maxTokens self
  /\ tokenCount self <= tokenCount final
  /\ forall id doc,
       dict_get id (documents self) = Some doc ->
       exists doc',
         dict_get id (documents final) = Some doc'
         /\ documentTitle doc' = documentTitle doc
         /\ insertOrder doc' = insertOrder doc.
Proof.
  revert self final accepted.
  induction fs as [|f fs IH]; intros self final accepted; simpl.
  - intros [= <- <-]. repeat split; [lia|]. intros id doc H. exists doc. auto.
  - destruct (addFragment countTokens f self) as [r self'] eqn:Hadd.
    destruct (addFragment_keeps _ _ _ _ Hadd) as [Hm [Ht Hd]].
    assert (Hrest : forall final' acc',
               addChunks countTokens fs self' = (final', acc') ->
               maxTokens final' = maxTokens self
               /\ tokenCount self <= tokenCount final'
               /\ forall id doc,
                    dict_get id (documents self) = Some doc ->
                    exists doc',
                      dict_get id (documents final') = Some doc'
                      /\ documentTitle doc' = documentTitle doc
                      /\ insertOrder doc' = insertOrder doc).
    { intros final' acc' Hrun.
      destruct (IH _ _ _ Hrun) as [Hm' [Ht' Hd']].
      repeat split; [congruence | lia |].
      intros id doc H. destruct (Hd id doc H) as [d1 [H1 [T1 O1]]].
      destruct (Hd' id d1 H1) as [d2 [H2 [T2 O2]]].
      exists d2. repeat split; congruence. }
    destruct r as [[]|e].
    + destruct (addChunks countTokens fs self') as [final' acc'] eqn:Hrun.
      intros [= <- <-]. exact (Hrest _ _ eq_refl).
    + intros Hrun. exact (Hrest _ _ Hrun).
Qed.

(** The contents of the accepted fragments fit between the token count at
    the start and the budget. *)
Lemma contents_within_budget_from (fs : list Fragment)
    (self final : DocumentStringBuilder) (accepted : list Fragment) :
  addChunks countTokens fs self = (final, accepted) ->
  accepted <> [] ->
  (Z.of_nat (tokenCount self + sumTokens countTokens f_content accepted)
   <= maxTokens self)%Z.
Proof.
  revert self final accepted.
  induction fs as [|f fs IH]; intros self final accepted; simpl.
  - intros [= <- <-] H. contradiction.
  - rewrite addFragment_unfold.
    destruct (overflows countTokens self f) eqn:Hov.
    + intros Hrun Hne. exact (IH _ _ _ Hrun Hne).
    + destruct (addChunks countTokens fs (committed countTokens self f))
        as [final' acc'] eqn:Hrun.
      intros [= <- <-] _.
      assert (Hfit : ~ (Z.of_nat (tokenCount self + countTokens (f_content f))
                        > maxTokens self)%Z)
        by (intros H; apply overflows_spec in H; congruence).
      unfold sumTokens; simpl.
      destruct acc' as [|g acc']; [simpl; lia|].
      assert (Hne : g :: acc' <> []) by discriminate.
      specialize (IH _ _ _ Hrun Hne).
      rewrite tokenCount_committed in IH. unfold incrementalCost in IH.
      unfold sumTokens in IH. simpl maxTokens in IH. lia.
Qed.

(** X4: after any run of calls on a fresh builder in which at least one
    fragment is accepted, the token counts of the contents of the accepted
    fragments add up to no more than the budget; only the counts of titles
    and headers can take the total over it. *)
Theorem accepted_contents_within_budget (m : Z) (fs : list Fragment)
    (final : DocumentStringBuilder) (accepted : list Fragment) :
  addChunks countTokens fs (emptyBuilder m) = (final, accepted) ->
  accepted <> [] ->
  (Z.of_nat (sumTokens countTokens f_content accepted) <= m)%Z.
Proof.
  intros Hrun Hne.
  exact (contents_within_budget_from fs _ _ _ Hrun Hne).
Qed.

(** X5: after any run of calls on a fresh builder, the chunk list stored
    under a document and a header holds exactly the accepted fragments of
    that document and normalized header, in the order they arrived. *)
Theorem stored_chunks_are_accepted_fragments (m : Z) (fs : list Fragment)
    (final : DocumentStringBuilder) (accepted : list Fragment) (id h : string) :
  addChunks countTokens fs (emptyBuilder m) = (final, accepted) ->
  chunksOf final id h = map toChunk (filter (belongs id h) accepted).
Proof.
  intros Hrun.
  exact (c_chunks _ _ (addChunks_from_empty countTokens _ _ _ _ Hrun) id h).
Qed.





End Keeping.

Lemma addChunk_appends_to_own_group_witness :
  chunksOf (committed charTokens (emptyBuilder 10) oneTokenEach) "d" "h"
  = chunksOf (emptyBuilder 10) "d" "h"
    ++ (if belongs "d" "h" oneTokenEach then [toChunk oneTokenEach] else []).
Proof.
  apply (addChunk_appends_to_own_group charTokens (emptyBuilder 10)).
  vm_compute. reflexivity.
Defined.

(** A builder that holds document 9 with title [z], then a fragment of
    document 9 that carries another title: the document keeps its title and
    its insert order. *)
Lemma run_keeps_documents_witness :
  maxTokens
    (fst (addChunks charTokens [mkFragment "9" "other" None "b" 1]
            (committed charTokens (emptyBuilder 100)
               (mkFragment "9" "z" (Some "h") "a" 4))))
  = 100%Z
  /\ 3 <= tokenCount
            (fst (addChunks charTokens [mkFragment "9" "other" None "b" 1]
                    (committed charTokens (emptyBuilder 100)
                       (mkFragment "9" "z" (Some "h") "a" 4))))
  /\ exists doc',
       dict_get "9"
         (documents
            (fst (addChunks charTokens [mkFragment "9" "other" None "b" 1]
                    (committed charTokens (emptyBuilder 100)
                       (mkFragment "9" "z" (Some "h") "a" 4)))))
       = Some doc'
       /\ documentTitle doc' = "z"
       /\ insertOrder doc' = 0.
Proof.
  destruct (run_keeps_documents charTokens
              [mkFragment "9" "other" None "b" 1]
              (committed charTokens (emptyBuilder 100)
                 (mkFragment "9" "z" (Some "h") "a" 4))
              (fst (addChunks charTokens [mkFragment "9" "other" None "b" 1]
                      (committed charTokens (emptyBuilder 100)
                         (mkFragment "9" "z" (Some "h") "a" 4))))
              [mkFragment "9" "other" None "b" 1])
    as [Hm [Ht Hd]]; [vm_compute; reflexivity|].
  split; [exact Hm|]. split; [exact Ht|].
  exact (Hd "9" (mkDocument "z" 0 [("h", mkHeaderGroup "h" [mkChunk "a" 4])])
           eq_refl).
Defined.

Lemma accepted_contents_within_budget_witness :
  (Z.of_nat (sumTokens charTokens f_content interleaved) <= 100)%Z.
Proof.
  apply (accepted_contents_within_budget charTokens 100 interleaved
           (fst (addChunks charTokens interleaved (emptyBuilder 100)))).
  - vm_compute. reflexivity.
  - discriminate.
Defined.

Lemma stored_chunks_are_accepted_fragments_witness :
  chunksOf (fst (addChunks charTokens interleaved (emptyBuilder 100))) "9" "h"
  = map toChunk (filter (belongs "9" "h") interleaved).
Proof.
  apply (stored_chunks_are_accepted_fragments charTokens 100 interleaved).
  vm_compute. reflexivity.
Defined.



(** ** What [__str__] prints *)

Lemma sorted_perm_unique {A : Type} (key : A -> Z) (l1 l2 : list A) :
  StronglySorted (key_le key) l1 -> StronglySorted (key_le key) l2 ->
  Permutation l1 l2 -> NoDup (map key l1) -> l1 = l2.
Proof.
  revert l2. induction l1 as [|x l1 IH]; intros l2 H1 H2 Hp Hnd.
  - apply Permutation_nil in Hp. now subst.
  - destruct l2 as [|y l2].
    + apply Permutation_sym, Permutation_nil in Hp. discriminate.
    + inversion H1 as [|? ? Hs1 Hx]; subst.
      inversion H2 as [|? ? Hs2 Hy]; subst.
      inversion Hnd as [|? ? Hnotin Hnd']; subst.
      rewrite Forall_forall in Hx, Hy.
      assert (Exy : x = y).
      { assert (Hinx : In x (y :: l2))
          by (apply (Permutation_in _ Hp); now left).
        assert (Hiny : In y (x :: l1))
          by (apply (Permutation_in _ (Permutation_sym Hp)); now left).
        destruct Hinx as [E|Hinx]; [now subst|].
        destruct Hiny as [E|Hiny]; [now subst|].
        exfalso. apply Hnotin.
        pose proof (Hx y Hiny) as Hle1. pose proof (Hy x Hinx) as Hle2.
        unfold key_le in *.
        replace (key x) with (key y) by lia. now apply in_map. }
      subst y. f_equal.
      apply IH; try assumption. exact (Permutation_cons_inv Hp).
Qed.

(** When the keys are distinct, [sorted] gives the same list for every
    order of its input. *)
Lemma sorted_of_permutation {A : Type} (key : A -> Z) (l1 l2 : list A) :
  Permutation l1 l2 -> NoDup (map key l1) -> sorted key l1 = sorted key l2.
Proof.
  intros Hp Hnd. apply (sorted_perm_unique key); try apply sorted_sorted.
  - rewrite (sorted_perm key l1), Hp. symmetry. apply sorted_perm.
  - apply (Permutation_NoDup (l := map key l1)); [|exact Hnd].
    apply Permutation_map. symmetry. apply sorted_perm.
Qed.

Lemma chunkLines_gapsAfter (previous : Chunk) (cs : list Chunk) :
  chunkNumber previous <> 0%Z ->
  Forall (fun c => chunkNumber c <> 0%Z) cs ->
  chunkLines (chunkNumber previous) cs = gapsAfter previous cs.
Proof.
  revert previous. induction cs as [|c cs IH]; intros previous Hp Hcs;
    [reflexivity|].
  inversion Hcs as [|? ? Hc Hcs']; subst.
  rewrite chunkLines_cons; simpl gapsAfter. rewrite (IH c Hc Hcs').
  destruct (Z.eqb_spec (chunkNumber previous) 0); [contradiction|].
  destruct (Z.eqb_spec (chunkNumber c) (chunkNumber previous + 1));
    destruct (Z.eqb_spec (chunkNumber c - chunkNumber previous) 1);
    try reflexivity; lia.
Qed.

(** X8: when no chunk of a header is numbered 0, the lines of the header
    are its header line and then its chunks in ascending order of sequence
    number, with a marker line between two neighbours exactly when their
    numbers do not differ by 1. *)
Theorem gap_markers_without_chunk_zero (hdr : HeaderGroup) :
  Forall (fun c => chunkNumber c <> 0%Z) (chunks hdr) ->
  headerLines hdr
  = (header hdr ++ ":")%string :: gapLines (sorted chunkNumber (chunks hdr))
  /\ StronglySorted (key_le chunkNumber) (sorted chunkNumber (chunks hdr))
  /\ Permutation (sorted chunkNumber (chunks hdr)) (chunks hdr).
Proof.
  intros Hnz. split; [|split; [apply sorted_sorted | apply sorted_perm]].
  rewrite headerLines_unfold. f_equal.
  assert (Hnz' : Forall (fun c => chunkNumber c <> 0%Z)
                   (sorted chunkNumber (chunks hdr))).
  { eapply Permutation_Forall; [|exact Hnz]. symmetry. apply sorted_perm. }
  destruct (sorted chunkNumber (chunks hdr)) as [|c cs]; [reflexivity|].
  inversion Hnz' as [|? ? Hc Hcs]; subst.
  rewrite chunkLines_after_zero. simpl gapLines. f_equal.
  exact (chunkLines_gapsAfter c cs Hc Hcs).
Qed.

Lemma gap_markers_without_chunk_zero_witness :
  headerLines (mkHeaderGroup "h" [mkChunk "c" 7; mkChunk "a" 3; mkChunk "b" 4])
  = "h:" :: gapLines (sorted chunkNumber [mkChunk "c" 7; mkChunk "a" 3; mkChunk "b" 4])
  /\ StronglySorted (key_le chunkNumber)
       (sorted chunkNumber [mkChunk "c" 7; mkChunk "a" 3; mkChunk "b" 4])
  /\ Permutation
       (sorted chunkNumber [mkChunk "c" 7; mkChunk "a" 3; mkChunk "b" 4])
       [mkChunk "c" 7; mkChunk "a" 3; mkChunk "b" 4].
Proof.
  apply (gap_markers_without_chunk_zero
           (mkHeaderGroup "h" [mkChunk "c" 7; mkChunk "a" 3; mkChunk "b" 4])).
  repeat constructor; simpl; lia.
Defined.

(** X9: when the chunks of a header have distinct sequence numbers, the
    lines of the header do not depend on the order in which the chunks
    arrived. *)
Theorem header_lines_ignore_arrival_order (h : string) (cs cs' : list Chunk) :
  Permutation cs cs' ->
  NoDup (map chunkNumber cs) ->
  headerLines (mkHeaderGroup h cs) = headerLines (mkHeaderGroup h cs').
Proof.
  intros Hp Hnd. rewrite !headerLines_unfold; simpl.
  now rewrite (sorted_of_permutation chunkNumber cs cs' Hp Hnd).
Qed.

Lemma header_lines_ignore_arrival_order_witness :
  headerLines (mkHeaderGroup "h" [mkChunk "c" 7; mkChunk "a" 3; mkChunk "b" 4])
  = headerLines (mkHeaderGroup "h" [mkChunk "a" 3; mkChunk "c" 7; mkChunk "b" 4]).
Proof.
  apply header_lines_ignore_arrival_order.
  - apply perm_swap.
  - repeat constructor; simpl; intuition discriminate.
Defined.

Lemma count_occ_pos_In (s : string) (l : list string) :
  In s l -> 1 <= count_occ string_dec l s.
Proof. intros H. apply (count_occ_In string_dec) in H. lia. Qed.

Lemma mapR_raises_iff {A B : Type} (f : A -> result B) (l : list A) :
  (forall a, f a = Raise IndexError \/ exists z, f a = Ok z) ->
  mapR f l = Raise IndexError <-> Exists (fun a => f a = Raise IndexError) l.
Proof.
  intros Hf. induction l as [|x l IH]; simpl.
  - split; [discriminate | intros H; inversion H].
  - destruct (Hf x) as [Hx|[z Hx]]; rewrite Hx; simpl.
    + split; [intros _; now left | reflexivity].
    + destruct (mapR f l) as [ys|e] eqn:Hl; simpl.
      * split; [discriminate|]. intros H.
        inversion H as [? ? Hx'|? ? Hl']; subst; [congruence|].
        apply IH in Hl'. discriminate.
      * split.
        -- intros [= ->]. right. now apply IH.
        -- intros H. inversion H as [? ? Hx'|? ? Hl']; subst; [congruence|].
           apply IH in Hl'. exact Hl'.
Qed.

Section Printing.

Variable countTokens : string -> nat.
Variable upper : string -> string.

(** X11: the lines of a document cannot be collected exactly when one of
    its header entries has no chunk: the sort key [chunks[0]] of that entry
    raises [IndexError]; with a chunk under every header, they can. *)
Theorem document_lines_raise_iff_empty_group (id : string) (doc : Document) :
  (documentLines upper id doc = Raise IndexError
   <-> Exists (fun e => chunks (snd e) = []) (headers doc))
  /\ (Forall (fun e => chunks (snd e) <> []) (headers doc) ->
      documentLines upper id doc = Ok (documentBlock upper (id, doc))).
Proof.
  split.
  - unfold documentLines, sortedHeaders, sortedR.
    assert (Hkey : forall e : string * HeaderGroup,
               firstChunkNumber e = Raise IndexError <-> chunks (snd e) = []).
    { intros e. unfold firstChunkNumber.
      destruct (chunks (snd e)); split; try discriminate; reflexivity. }
    assert (Hcases : forall e : string * HeaderGroup,
               firstChunkNumber e = Raise IndexError
               \/ exists z, firstChunkNumber e = Ok z).
    { intros e. unfold firstChunkNumber.
      destruct (chunks (snd e)); [left | right; eexists]; reflexivity. }
    pose proof (mapR_raises_iff firstChunkNumber (headers doc) Hcases) as Hm.
    rewrite (Exists_exists (fun e => chunks (snd e) = [])).
    rewrite Exists_exists in Hm.
    revert Hm.
    destruct (mapR firstChunkNumber (headers doc)) as [ks|e]; simpl; intros Hm.
    + split; [discriminate|]. intros [x [Hx Hempty]].
      assert (Hr : @Ok (list Z) ks = Raise IndexError); [|discriminate Hr].
      apply Hm. exists x. split; [exact Hx | now apply Hkey].
    + split.
      * intros [= ->]. destruct (proj1 Hm eq_refl) as [x [Hx Hr]].
        exists x. split; [exact Hx | now apply Hkey].
      * intros [x [Hx Hempty]]. f_equal.
        assert (Hr : @Raise (list Z) e = Raise IndexError); [|now injection Hr].
        apply Hm. exists x. split; [exact Hx | now apply Hkey].
  - intros Hall. unfold documentLines, sortedHeaders.
    rewrite (sortedR_total firstChunkNumber headKey); [reflexivity|].
    intros e He. rewrite Forall_forall in Hall. specialize (Hall e He).
    unfold firstChunkNumber, headKey.
    destruct (chunks (snd e)); [contradiction | reflexivity].
Qed.

End Printing.

(** ** What [chunksToText] returns *)

Lemma concat_newline_nonempty (x y : string) (l : list string) :
  String.concat newline (x :: y :: l) <> EmptyString.
Proof.
  simpl. destruct x; simpl; discriminate.
Qed.

Section ChunksToTextFacts.

Variable countTokens : string -> nat.
Variable upper : string -> string.

Lemma lines_after_first_accepted (pre : list Fragment) (f : Fragment)
    (self : DocumentStringBuilder) :
  consistent (f :: pre) self ->
  exists x y l, lines upper self = Ok (x :: y :: l).
Proof.
  intros Hc. rewrite (lines_consistent upper _ _ Hc).
  pose proof (c_first _ _ Hc) as Hk. simpl in Hk.
  destruct (firstSeen_prefix [f_documentId f] (map f_documentId pre))
    as [rest Hrest].
  rewrite Hrest in Hk.
  destruct (documents self) as [|e docs]; [discriminate|]. simpl.
  unfold documentBlock at 1.
  destruct (List.concat (map (fun h => headerLines (snd h))
                           (sorted headKey (headers (snd e)))))
    as [|y l]; simpl; eauto.
Qed.

(** X13: [chunksToText] returns the empty string exactly when there is no
    fragment or the content of the first fragment alone is over the budget;
    in the second case the fragments after it are not looked at. *)
Theorem chunksToText_empty_iff (fs : list Fragment) (m : Z) :
  chunksToText countTokens upper fs m = Ok EmptyString
  <-> match fs with
      | [] => True
      | f :: _ => overflows countTokens (emptyBuilder m) f = true
      end.
Proof.
  destruct fs as [|f fs]; [split; reflexivity|].
  unfold chunksToText, init. simpl rbind. simpl feed.
  change (mkBuilder m 0 []) with (emptyBuilder m).
  rewrite addFragment_unfold.
  destruct (overflows countTokens (emptyBuilder m) f) eqn:Hov.
  - split; reflexivity.
  - split; [|discriminate]. intros H. exfalso.
    destruct (feed_accepts_prefix countTokens fs
                (committed countTokens (emptyBuilder m) f))
      as [acc [rest [_ [Hacc [Hfeed _]]]]].
    rewrite Hfeed in H.
    assert (Hc : consistent (f :: acc)
                   (fst (addChunks countTokens acc
                           (committed countTokens (emptyBuilder m) f)))).
    { apply (addChunks_consistent countTokens acc [f] _ _ _
               (consistent_committed countTokens [] _ f (consistent_empty m))
               Hacc). }
    destruct (lines_after_first_accepted _ _ _ Hc) as [x [y [l Hl]]].
    unfold str in H. rewrite Hl in H. simpl rbind in H.
    injection H as H. exact (concat_newline_nonempty x y l H).
Qed.

End ChunksToTextFacts.

(** * The checkboxes *)

Lemma list_getitem_ok_iff {A : Type} (l : list A) (i : Z) :
  (exists a, list_getitem l i = Ok a)
  <-> (- Z.of_nat (List.length l) <= i < Z.of_nat (List.length l))%Z.
Proof.
  unfold list_getitem.
  set (n := Z.of_nat (List.length l)).
  set (j := if (i <? 0)%Z then (i + n)%Z else i).
  assert (Hj : (0 <= j < n)%Z <-> (- n <= i < n)%Z).
  { unfold j. destruct (Z.ltb_spec i 0); lia. }
  destruct (Z.leb_spec 0 j) as [H0|H0]; destruct (Z.ltb_spec j n) as [Hn|Hn];
    simpl.
  - destruct (nth_error l (Z.to_nat j)) as [a|] eqn:E.
    + split; [intros _; apply Hj; lia | intros _; now exists a].
    + apply nth_error_None in E. unfold n in Hn. lia.
  - split; [intros [a H]; discriminate | intros H; apply Hj in H; lia].
  - split; [intros [a H]; discriminate | intros H; apply Hj in H; lia].
  - split; [intros [a H]; discriminate | intros H; apply Hj in H; lia].
Qed.

Lemma list_getitem_cases {A : Type} (l : list A) (i : Z) :
  list_getitem l i = Raise IndexError \/ exists a, list_getitem l i = Ok a.
Proof.
  unfold list_getitem.
  destruct ((0 <=? _) && _)%Z; [|now left].
  destruct (nth_error l _); [right; eexists | left]; reflexivity.
Qed.

Lemma list_getitem_nonneg {A : Type} (l : list A) (n : nat) (d : A) :
  n < List.length l -> list_getitem l (Z.of_nat n) = Ok (nth n l d).
Proof.
  intros Hn. unfold list_getitem.
  destruct (Z.ltb_spec (Z.of_nat n) 0); [lia|].
  destruct (Z.leb_spec 0 (Z.of_nat n)); [|lia].
  destruct (Z.ltb_spec (Z.of_nat n) (Z.of_nat (List.length l))); [|lia].
  simpl. rewrite Nat2Z.id, (nth_error_nth' l d Hn). reflexivity.
Qed.

Lemma extendWithGroups_mapR (checkboxIndices : list Z) (documentIds : list Z) :
  extendWithGroups checkboxIndices documentIds
  = rbind (mapR (list_getitem document_groups) checkboxIndices)
          (fun groups => Ok (documentIds ++ List.concat (map snd groups))).
Proof.
  revert documentIds.
  induction checkboxIndices as [|i rest IH]; intros documentIds; simpl.
  - now rewrite app_nil_r.
  - destruct (list_getitem document_groups i) as [group|e]; simpl;
      [|reflexivity].
    rewrite IH.
    destruct (mapR (list_getitem document_groups) rest); simpl;
      [|reflexivity].
    now rewrite app_assoc.
Qed.

Lemma mapR_ok_iff {A B : Type} (f : A -> result B) (l : list A) :
  (exists ys, mapR f l = Ok ys) <-> Forall (fun a => exists y, f a = Ok y) l.
Proof.
  induction l as [|x l IH]; simpl.
  - split; [constructor | intros _; now eexists].
  - split.
    + intros [ys H]. destruct (f x) as [y|e] eqn:Hx; simpl in H; [|discriminate].
      constructor; [now exists y|]. apply IH.
      destruct (mapR f l) as [zs|e]; [now eexists | discriminate].
    + intros H. inversion H as [|? ? [y Hy] Hl]; subst.
      apply IH in Hl. destruct Hl as [ys Hys].
      rewrite Hy, Hys. simpl. now eexists.
Qed.

Lemma mapR_In {A B : Type} (f : A -> result B) (l : list A) (ys : list B) (y : B) :
  mapR f l = Ok ys ->
  In y ys <-> exists a, In a l /\ f a = Ok y.
Proof.
  revert ys. induction l as [|x l IH]; intros ys; simpl.
  - intros [= <-]. split; [intros [] | intros [a [[] _]]].
  - destruct (f x) as [z|e] eqn:Hx; simpl; [|discriminate].
    destruct (mapR f l) as [zs|e] eqn:Hl; simpl; [|discriminate].
    intros [= <-]. specialize (IH zs eq_refl). simpl. rewrite IH. split.
    + intros [<-|[a [Ha Hf]]]; [exists x; auto | exists a; auto].
    + intros [a [[<-|Ha] Hf]]; [left; congruence | right; now exists a].
Qed.

(** X14: [checkboxIndicestoDocumentIds] returns a list exactly when every
    index is one of -8 .. 7 (a negative index counts the checkboxes from the
    last one); with any other index in the list it raises [IndexError]. *)
Theorem checkbox_indices_in_range (checkboxIndices : list Z) :
  ((exists documentIds,
       checkboxIndicestoDocumentIds checkboxIndices = Ok documentIds)
   <-> Forall (fun i => (-8 <= i < 8)%Z) checkboxIndices)
  /\ (checkboxIndicestoDocumentIds checkboxIndices = Raise IndexError
      <-> Exists (fun i => ~ (-8 <= i < 8)%Z) checkboxIndices).
Proof.
  unfold checkboxIndicestoDocumentIds. rewrite extendWithGroups_mapR.
  assert (Hok : forall i,
             (exists g, list_getitem document_groups i = Ok g)
             <-> (-8 <= i < 8)%Z)
    by (intros i; apply (list_getitem_ok_iff document_groups i)).
  assert (Hall : (exists gs, mapR (list_getitem document_groups) checkboxIndices
                             = Ok gs)
                 <-> Forall (fun i => (-8 <= i < 8)%Z) checkboxIndices).
  { rewrite mapR_ok_iff. split; apply Forall_impl; intros i; apply Hok. }
  split.
  - rewrite <- Hall.
    destruct (mapR (list_getitem document_groups) checkboxIndices); simpl;
      split; intros [x H]; try discriminate; eexists; reflexivity.
  - pose proof (mapR_raises_iff (list_getitem document_groups) checkboxIndices
                  (list_getitem_cases document_groups)) as Hr.
    assert (Hex : Exists (fun i => list_getitem document_groups i = Raise IndexError)
                    checkboxIndices
                  <-> Exists (fun i => ~ (-8 <= i < 8)%Z) checkboxIndices).
    { split; apply Exists_impl; intros i.
      - intros Hi Hrange. apply Hok in Hrange. destruct Hrange as [g Hg].
        congruence.
      - intros Hn.
        destruct (list_getitem_cases document_groups i) as [Hi|Hi];
          [exact Hi|]. exfalso. apply Hn, Hok, Hi. }
    rewrite <- Hex, <- Hr.
    destruct (mapR (list_getitem document_groups) checkboxIndices); simpl;
      split; intros H; try discriminate; injection H as ->; reflexivity.
Qed.

(** X15: when it returns, a document identifier is in the list exactly when
    it is in the group of one of the ticked checkboxes. *)
Theorem checkbox_document_membership (checkboxIndices documentIds : list Z) (d : Z) :
  checkboxIndicestoDocumentIds checkboxIndices = Ok documentIds ->
  In d documentIds
  <-> exists i group,
        In i checkboxIndices
        /\ list_getitem document_groups i = Ok group
        /\ In d (snd group).
Proof.
  unfold checkboxIndicestoDocumentIds. rewrite extendWithGroups_mapR.
  destruct (mapR (list_getitem document_groups) checkboxIndices) as [gs|e] eqn:Hgs;
    simpl; [|discriminate].
  intros [= <-]. rewrite in_concat. split.
  - intros [ids [Hids Hd]]. apply in_map_iff in Hids.
    destruct Hids as [group [<- Hg]].
    apply (mapR_In _ _ _ group Hgs) in Hg. destruct Hg as [i [Hi Hget]].
    exists i, group. auto.
  - intros [i [group [Hi [Hget Hd]]]]. exists (snd group). split; [|exact Hd].
    apply in_map. apply (mapR_In _ _ _ group Hgs). exists i. auto.
Qed.

Lemma checkbox_document_membership_witness :
  In 45%Z [1; 5; 45; 0]%Z
  <-> exists i group,
        In i [1; 0]%Z
        /\ list_getitem document_groups i = Ok group
        /\ In 45%Z (snd group).
Proof.
  apply (checkbox_document_membership [1; 0]%Z). reflexivity.
Defined.

Lemma NoDup_app_disjoint {A : Type} (l1 l2 : list A) (x : A) :
  NoDup (l1 ++ l2) -> In x l1 -> In x l2 -> False.
Proof.
  induction l1 as [|a l1 IH]; simpl; [tauto|].
  intros Hnd [->|H1] H2; inversion Hnd as [|? ? Hnotin Hnd']; subst.
  - apply Hnotin, in_or_app. now right.
  - exact (IH Hnd' H1 H2).
Qed.

Lemma In_nth_concat {A : Type} (gs : list (list A)) (n : nat) (x : A) :
  In x (nth n gs []) -> In x (List.concat gs).
Proof.
  revert n. induction gs as [|g gs IH]; intros [|n]; simpl; try tauto.
  - intros H. apply in_or_app. now left.
  - intros H. apply in_or_app. right. exact (IH n H).
Qed.

Lemma concat_NoDup_nth {A : Type} (gs : list (list A)) (n : nat) :
  NoDup (List.concat gs) -> NoDup (nth n gs []).
Proof.
  revert n. induction gs as [|g gs IH]; intros [|n]; simpl; intros H;
    try constructor.
  - exact (NoDup_app_remove_r _ _ H).
  - exact (IH n (NoDup_app_remove_l _ _ H)).
Qed.

Lemma concat_NoDup_disjoint {A : Type} (gs : list (list A)) (n1 n2 : nat) (x : A) :
  NoDup (List.concat gs) -> n1 <> n2 ->
  In x (nth n1 gs []) -> In x (nth n2 gs []) -> False.
Proof.
  revert n1 n2. induction gs as [|g gs IH]; intros [|n1] [|n2]; simpl;
    intros Hnd Hne H1 H2; try tauto.
  - exact (NoDup_app_disjoint _ _ x Hnd H1 (In_nth_concat gs n2 x H2)).
  - exact (NoDup_app_disjoint _ _ x Hnd H2 (In_nth_concat gs n1 x H1)).
  - apply (IH n1 n2 (NoDup_app_remove_l _ _ Hnd)); auto.
Qed.

Lemma selection_NoDup {A : Type} (gs : list (list A)) (ns : list nat) :
  NoDup (List.concat gs) -> NoDup ns ->
  NoDup (List.concat (map (fun n => nth n gs []) ns)).
Proof.
  intros Hgs. induction ns as [|n ns IH]; simpl; intros Hns; [constructor|].
  inversion Hns as [|? ? Hnotin Hns']; subst.
  apply NoDup_app; [now apply concat_NoDup_nth | exact (IH Hns') |].
  intros x Hx Hin. apply in_concat in Hin. destruct Hin as [g [Hg Hxg]].
  apply in_map_iff in Hg. destruct Hg as [n' [<- Hn']].
  apply (concat_NoDup_disjoint gs n n' x Hgs); auto.
  intros ->. contradiction.
Qed.

Lemma document_groups_disjoint : NoDup (List.concat (map snd document_groups)).
Proof.
  apply (NoDup_map_inv Z.to_nat).
  vm_compute.
  repeat (constructor; [simpl; intuition discriminate|]). constructor.
Qed.

(** X16: no document identifier is in two groups, so ticking distinct
    checkboxes (indices 0 .. 7, as the interface sends them) gives a list of
    document identifiers without repetition. *)
Theorem distinct_checkboxes_distinct_documents (checkboxIndices : list Z) :
  NoDup checkboxIndices ->
  Forall (fun i => (0 <= i < 8)%Z) checkboxIndices ->
  exists documentIds,
    checkboxIndicestoDocumentIds checkboxIndices = Ok documentIds
    /\ NoDup documentIds.
Proof.
  intros Hnd Hrange.
  unfold checkboxIndicestoDocumentIds. rewrite extendWithGroups_mapR.
  set (pick := fun i : Z => nth (Z.to_nat i) document_groups (EmptyString, [])).
  rewrite (mapR_total _ pick).
  - simpl. eexists. split; [reflexivity|].
    rewrite map_map.
    replace (map (fun i => snd (pick i)) checkboxIndices)
      with (map (fun n => nth n (map snd document_groups) [])
                (map Z.to_nat checkboxIndices)).
    + apply selection_NoDup; [exact document_groups_disjoint|].
      apply NoDup_map_NoDup_ForallPairs; [|exact Hnd].
      rewrite Forall_forall in Hrange.
      intros x y Hx Hy E. pose proof (Hrange x Hx). pose proof (Hrange y Hy). lia.
    + rewrite map_map. apply map_ext. intros i. unfold pick.
      now rewrite <- (map_nth snd).
  - intros i Hi. rewrite Forall_forall in Hrange. specialize (Hrange i Hi).
    unfold pick. rewrite <- (Z2Nat.id i) at 1 by lia.
    apply list_getitem_nonneg. simpl. lia.
Qed.

Lemma distinct_checkboxes_distinct_documents_witness :
  exists documentIds,
    checkboxIndicestoDocumentIds [7; 0; 1]%Z = Ok documentIds
    /\ NoDup documentIds.
Proof.
  apply distinct_checkboxes_distinct_documents.
  - repeat constructor; simpl; intuition discriminate.
  - repeat constructor; lia.
Defined.

(** * The index builder *)

(** Case analysis on the test [countTokens(chunk_in_progress) > 100]. *)
Ltac case_over_100 :=
  match goal with
  | |- context [Nat.ltb 100 ?n] => destruct (Nat.ltb_spec 100 n)
  end.

Lemma append_nil_r (s : string) : (s ++ EmptyString)%string = s.
Proof. induction s as [|c s IH]; simpl; [reflexivity | now rewrite IH]. Qed.

Lemma append_assoc (s t u : string) :
  ((s ++ t) ++ u)%string = (s ++ t ++ u)%string.
Proof. induction s as [|c s IH]; simpl; [reflexivity | now rewrite IH]. Qed.

Lemma splitNewline_nonempty (s : string) : splitNewline s <> [].
Proof.
  destruct s as [|c s]; simpl; [discriminate|].
  destruct (Ascii.eqb c (ascii_of_nat 10)); [discriminate|].
  destruct (splitNewline s); discriminate.
Qed.

(** Joining the pieces of [split] with newlines gives the string back. *)
Lemma split_join (s : string) : String.concat newline (splitNewline s) = s.
Proof.
  induction s as [|c s IH]; [reflexivity|].
  simpl splitNewline.
  destruct (Ascii.eqb_spec c (ascii_of_nat 10)) as [->|Hc].
  - pose proof (splitNewline_nonempty s) as Hne.
    destruct (splitNewline s) as [|p ps]; [contradiction|].
    change (String.concat newline (EmptyString :: p :: ps))
      with (EmptyString ++ newline ++ String.concat newline (p :: ps))%string.
    rewrite IH. reflexivity.
  - pose proof (splitNewline_nonempty s) as Hne.
    destruct (splitNewline s) as [|p ps]; [contradiction|].
    destruct ps as [|q ps]; simpl in *; now rewrite IH.
Qed.

Lemma joined_paragraphs (ps : list string) :
  ps <> [] ->
  joined (map (String.append newline) ps)
  = (newline ++ String.concat newline ps)%string.
Proof.
  induction ps as [|p ps IH]; [contradiction|]. intros _.
  destruct ps as [|q ps].
  - simpl joined. now rewrite append_nil_r.
  - change (joined (map (String.append newline) (p :: q :: ps)))
      with ((newline ++ p) ++ joined (map (String.append newline) (q :: ps)))%string.
    rewrite IH by discriminate.
    change (String.concat newline (p :: q :: ps))
      with (p ++ newline ++ String.concat newline (q :: ps))%string.
    now rewrite append_assoc.
Qed.

Section IndexBuilderFacts.

Variable countTokens : string -> nat.
Variable strip : string -> string.

Lemma paragraphLoop_raw (header : option string) (ps : list string) (c : string) :
  map ic_content (fst (paragraphLoop countTokens strip header ps c))
    ++ [strip (snd (paragraphLoop countTokens strip header ps c))]
  = map strip (rawPieces countTokens ps c).
Proof.
  revert c. induction ps as [|p ps IH]; intros c; simpl; [reflexivity|].
  case_over_100.
  - specialize (IH EmptyString).
    destruct (paragraphLoop countTokens strip header ps EmptyString); simpl in *.
    now rewrite IH.
  - apply IH.
Qed.

Lemma paragraphLoop_header (header : option string) (ps : list string) (c : string) :
  Forall (fun chunk => ic_header chunk = header)
    (fst (paragraphLoop countTokens strip header ps c)).
Proof.
  revert c. induction ps as [|p ps IH]; intros c; simpl; [constructor|].
  case_over_100.
  - specialize (IH EmptyString).
    destruct (paragraphLoop countTokens strip header ps EmptyString); simpl in *.
    now constructor.
  - apply IH.
Qed.

Lemma joined_rawPieces (ps : list string) (c : string) :
  joined (rawPieces countTokens ps c)
  = (c ++ joined (map (String.append newline) ps))%string.
Proof.
  revert c. induction ps as [|p ps IH]; intros c; simpl.
  - reflexivity.
  - case_over_100; simpl.
    + rewrite IH. simpl. now rewrite !append_assoc.
    + rewrite IH. now rewrite !append_assoc.
Qed.

Lemma rawPieces_closed (ps : list string) (c : string) :
  Forall (fun p => 100 < countTokens p) (removelast (rawPieces countTokens ps c))
  /\ rawPieces countTokens ps c <> []
  /\ List.length (rawPieces countTokens ps c) <= S (List.length ps).
Proof.
  revert c. induction ps as [|p ps IH]; intros c; simpl.
  - repeat split; [constructor | discriminate | lia].
  - case_over_100.
    + destruct (IH EmptyString) as [Hf [Hne Hlen]].
      destruct (rawPieces countTokens ps EmptyString) as [|q qs] eqn:E;
        [contradiction|].
      repeat split; [|discriminate | simpl in *; lia].
      change (removelast ((c ++ newline ++ p)%string :: q :: qs))
        with ((c ++ newline ++ p)%string :: removelast (q :: qs)).
      now constructor.
    + destruct (IH (c ++ newline ++ p)%string) as [Hf [Hne Hlen]].
      repeat split; [exact Hf | exact Hne | simpl in *; lia].
Qed.



(** X19: a section of 200 tokens or more is cut where the running text,
    which takes a newline and the next paragraph at each step, first counts
    more than 100 tokens.  The chunks are the [strip] of pieces that, put
    end to end, are a newline followed by the text of the section: nothing
    of the text is lost or doubled before [strip].  Every piece but the
    last counts more than 100 tokens, and there is at most one piece more
    than there are paragraphs. *)
Theorem long_section_keeps_text (s : SPSection) :
  200 <= countTokens (text s) ->
  exists pieces,
    map ic_content (getChunks countTokens strip [s]) = map strip pieces
    /\ joined pieces = (newline ++ text s)%string
    /\ Forall (fun p => 100 < countTokens p) (removelast pieces)
    /\ List.length pieces <= S (List.length (splitNewline (text s))).
Proof.
  intros Hlong.
  exists (rawPieces countTokens (splitNewline (text s)) EmptyString).
  destruct (rawPieces_closed (splitNewline (text s)) EmptyString)
    as [Hf [_ Hlen]].
  repeat split; [| |exact Hf | exact Hlen].
  - unfold getChunks; simpl.
    destruct (Nat.ltb_spec (countTokens (text s)) 200) as [Hlt|_]; [lia|].
    pose proof (paragraphLoop_raw (heading s) (splitNewline (text s))
                  EmptyString) as Hraw.
    destruct (paragraphLoop countTokens strip (heading s)
                (splitNewline (text s)) EmptyString) as [ys left].
    simpl in Hraw. rewrite map_app. simpl. exact Hraw.
  - rewrite joined_rawPieces.
    rewrite (joined_paragraphs _ (splitNewline_nonempty (text s))).
    now rewrite split_join.
Qed.

(** X20: a section of 200 tokens or more that is one paragraph (no newline
    in its text) and counts more than 100 tokens with a newline put before
    it gives two chunks: its stripped text, and the [strip] of the empty
    string, a chunk with nothing in it. *)
Theorem one_paragraph_section_adds_empty_chunk (s : SPSection) :
  200 <= countTokens (text s) ->
  splitNewline (text s) = [text s] ->
  100 < countTokens (newline ++ text s) ->
  getChunks countTokens strip [s]
  = [ mkIndexChunk (heading s) (strip (newline ++ text s));
      mkIndexChunk (heading s) (strip EmptyString) ].
Proof.
  intros Hlong Hone Hclose. unfold getChunks; simpl.
  destruct (Nat.ltb_spec (countTokens (text s)) 200) as [Hlt|_]; [lia|].
  rewrite Hone. simpl.
  case_over_100; [reflexivity | simpl in *; lia].
Qed.

Lemma indexLoop_numbers (documentId documentTitle : string)
    (chunks : list IndexChunk) (counter : Z) :
  map f_chunkNumber (indexLoop documentId documentTitle chunks counter)
  = map (fun n => (counter + Z.of_nat n)%Z) (seq 0 (List.length chunks)).
Proof.
  revert counter. induction chunks as [|chunk rest IH]; intros counter;
    [reflexivity|].
  simpl. rewrite Z.add_0_r. f_equal.
  rewrite IH, <- seq_shift, map_map. apply map_ext. intros n. lia.
Qed.

Lemma indexLoop_chunks (documentId documentTitle : string)
    (chunks : list IndexChunk) (counter : Z) :
  map (fun f => mkIndexChunk (f_header f) (f_content f))
    (indexLoop documentId documentTitle chunks counter)
  = chunks
  /\ Forall (fun f => f_documentId f = documentId
                      /\ f_documentTitle f = documentTitle)
       (indexLoop documentId documentTitle chunks counter).
Proof.
  revert counter. induction chunks as [|[h c] rest IH]; intros counter; simpl.
  - split; constructor.
  - destruct (IH (counter + 1)%Z) as [IH1 IH2]. rewrite IH1.
    split; [reflexivity|]. constructor; [split; reflexivity | exact IH2].
Qed.

Lemma indexChunks_numbers (sections : list SPSection)
    (documentId documentTitle : string) :
  map f_chunkNumber (indexChunks countTokens strip sections documentId documentTitle)
  = map Z.of_nat (seq 0 (List.length (getChunks countTokens strip sections))).
Proof.
  unfold indexChunks.
  rewrite indexLoop_numbers. apply map_ext. intros n. lia.
Qed.

(** X21: [indexChunks] stores one object for each chunk of [getChunks], in
    order, with the header and content of the chunk, the identifier and
    title of the document, and the position of the chunk as [chunkNumber],
    counted from 0: the first chunk of every document is number 0. *)
Theorem indexChunks_numbers_from_zero (sections : list SPSection)
    (documentId documentTitle : string) :
  map f_chunkNumber (indexChunks countTokens strip sections documentId documentTitle)
  = map Z.of_nat (seq 0 (List.length (getChunks countTokens strip sections)))
  /\ map (fun f => mkIndexChunk (f_header f) (f_content f))
       (indexChunks countTokens strip sections documentId documentTitle)
     = getChunks countTokens strip sections
  /\ Forall (fun f => f_documentId f = documentId
                      /\ f_documentTitle f = documentTitle)
       (indexChunks countTokens strip sections documentId documentTitle).
Proof.
  split; [apply indexChunks_numbers | apply indexLoop_chunks].
Qed.

End IndexBuilderFacts.

Lemma long_section_keeps_text_witness :
  exists pieces,
    map ic_content (getChunks charTokens asciiStrip [longSection])
    = map asciiStrip pieces
    /\ joined pieces = (newline ++ text longSection)%string
    /\ Forall (fun p => 100 < charTokens p) (removelast pieces)
    /\ List.length pieces <= S (List.length (splitNewline (text longSection))).
Proof.
  apply (long_section_keeps_text charTokens asciiStrip longSection).
  vm_compute. apply le_n.
Defined.

Lemma one_paragraph_section_adds_empty_chunk_witness :
  getChunks charTokens asciiStrip [longSection]
  = [ mkIndexChunk (Some "h") (asciiStrip (newline ++ longParagraph));
      mkIndexChunk (Some "h") (asciiStrip EmptyString) ].
Proof.
  apply (one_paragraph_section_adds_empty_chunk charTokens asciiStrip longSection).
  - vm_compute. apply le_n.
  - vm_compute. reflexivity.
  - apply Nat.ltb_lt. vm_compute. reflexivity.
Defined.

(** * The query *)

Section RunQueryFacts.

Variable countTokens : string -> nat.
Variable upper : string -> string.
Variable Temperature : Type.
Variable fetchchunks : string -> list Z -> presult (list Fragment).
Variable fetchOpenaiCompletion : string -> string -> Temperature -> presult string.

(** The name that [runquery] calls is not one that the module binds. *)
Lemma fetchChunks_unbound :
  searchFunction fetchchunks "fetchChunks" = PRaise (NameError "fetchChunks").
Proof. reflexivity. Qed.

(** X22: [runquery] returns [None] for every question, every selection of
    checkboxes and every temperature, whatever the search and the
    completion service would answer: it calls the search under the name
    [fetchChunks], which the module does not bind (the function is
    [fetchchunks]), so that either the indices or this name raise inside
    the [try]; the [except] clause logs the failure and the function ends
    without a [return].  No answer is ever logged. *)
Theorem runquery_returns_none (question : string)
    (documentCheckboxIndices : list Z) (temperature : Temperature) (ip : string) :
  runquery countTokens upper Temperature fetchchunks fetchOpenaiCompletion
    question documentCheckboxIndices temperature ip
  = (None,
     [ InfoQuery question;
       ExceptionHappened;
       ExceptionOccurred ip question documentCheckboxIndices temperature ]).
Proof.
  unfold runquery, runquery_try.
  destruct (checkboxIndicestoDocumentIds documentCheckboxIndices);
    reflexivity.
Qed.

(** So [runbutton_click_helper], the action of the submit button, raises
    [TypeError] for every input: it unpacks the [None] that [runquery]
    returns into two names. *)
Lemma submit_always_raises (question : string)
    (documentCheckboxIndices : list Z) (temperature : Temperature) (ip : string) :
  runbutton_click_helper countTokens upper Temperature fetchchunks
    fetchOpenaiCompletion question documentCheckboxIndices temperature ip
  = PRaise TypeError.
Proof.
  unfold runbutton_click_helper, runquery, runquery_try.
  destruct (checkboxIndicestoDocumentIds documentCheckboxIndices);
    reflexivity.
Qed.

End RunQueryFacts.

(** * From the index to the printed text *)

Lemma filter_permutation {A : Type} (p : A -> bool) (l l' : list A) :
  Permutation l l' -> Permutation (filter p l) (filter p l').
Proof.
  induction 1 as [|x l l' _ IH|x y l|l1 l2 l3 _ IH1 _ IH2]; simpl.
  - constructor.
  - destruct (p x); [now constructor | exact IH].
  - destruct (p x), (p y); try reflexivity. apply perm_swap.
  - now transitivity (filter p l2).
Qed.

Lemma NoDup_map_injective_on {A B : Type} (g : A -> B) (R : list A) (x y : A) :
  NoDup (map g R) -> In x R -> In y R -> g x = g y -> x = y.
Proof.
  induction R as [|r R IH]; simpl; [tauto|].
  intros Hnd Hx Hy E. inversion Hnd as [|? ? Hnotin Hnd']; subst.
  destruct Hx as [->|Hx]; destruct Hy as [->|Hy]; auto.
  - exfalso. apply Hnotin. rewrite E. now apply in_map.
  - exfalso. apply Hnotin. rewrite <- E. now apply in_map.
Qed.

Lemma seq_Z_NoDup (n : nat) : NoDup (map Z.of_nat (seq 0 n)).
Proof.
  apply NoDup_map_NoDup_ForallPairs; [|apply seq_NoDup].
  intros x y _ _ E. lia.
Qed.

Section IndexToText.

Variable countTokens : string -> nat.
Variable strip : string -> string.

(** X23: for fragments of one document as [indexChunks] stored them, the
    lines printed under a header do not depend on the order in which the
    search returned the fragments: two runs that accept the same fragments
    in different orders print the chunks of every header of that document
    alike. *)
Theorem retrieval_order_irrelevant_within_header
    (sections : list SPSection) (documentId documentTitle : string)
    (fs fs' : list Fragment) (m m' : Z)
    (final final' : DocumentStringBuilder) (h : string) :
  incl fs (indexChunks countTokens strip sections documentId documentTitle) ->
  NoDup fs ->
  Permutation fs fs' ->
  addChunks countTokens fs (emptyBuilder m) = (final, fs) ->
  addChunks countTokens fs' (emptyBuilder m') = (final', fs') ->
  headerLines (mkHeaderGroup h (chunksOf final documentId h))
  = headerLines (mkHeaderGroup h (chunksOf final' documentId h)).
Proof.
  intros Hincl Hnd Hperm Hrun Hrun'.
  rewrite (c_chunks _ _ (addChunks_from_empty countTokens _ _ _ _ Hrun)).
  rewrite (c_chunks _ _ (addChunks_from_empty countTokens _ _ _ _ Hrun')).
  rewrite !headerLines_unfold. simpl. f_equal. f_equal.
  apply sorted_of_permutation.
  - apply Permutation_map, filter_permutation, Hperm.
  - rewrite map_map. simpl.
    apply NoDup_map_NoDup_ForallPairs; [|now apply NoDup_filter].
    intros x y Hx Hy E.
    apply filter_In in Hx. apply filter_In in Hy.
    apply (NoDup_map_injective_on f_chunkNumber
             (indexChunks countTokens strip sections documentId documentTitle));
      [|apply Hincl; tauto | apply Hincl; tauto | exact E].
    rewrite (indexChunks_numbers countTokens strip sections documentId
               documentTitle).
    apply seq_Z_NoDup.
Qed.

End IndexToText.

Lemma retrieval_order_irrelevant_within_header_witness :
  headerLines
    (mkHeaderGroup "h"
       (chunksOf
          (fst (addChunks charTokens
                  (indexChunks charTokens asciiStrip threeSections "1" "t")
                  (emptyBuilder 100)))
          "1" "h"))
  = headerLines
      (mkHeaderGroup "h"
         (chunksOf
            (fst (addChunks charTokens
                    (rev (indexChunks charTokens asciiStrip threeSections "1" "t"))
                    (emptyBuilder 100)))
            "1" "h")).
Proof.
  apply (retrieval_order_irrelevant_within_header charTokens asciiStrip
           threeSections "1" "t"
           (indexChunks charTokens asciiStrip threeSections "1" "t")
           (rev (indexChunks charTokens asciiStrip threeSections "1" "t"))
           100 100).
  - apply incl_refl.
  - vm_compute. repeat constructor; simpl; intuition discriminate.
  - apply Permutation_rev.
  - vm_compute. reflexivity.
  - vm_compute. reflexivity.
Defined.

(** * The tokenizer that raises *)

Section RaisingFacts.

Variable countTokens : string -> option nat.

Lemma raising_addFragment_unfold (f : Fragment) (self : DocumentStringBuilder) :
  Raising.addFragment countTokens f self = outcome countTokens self f.
Proof.
  destruct self as [mx tc docs]. destruct f as [id title hd c n].
  unfold Raising.addFragment, Raising.addChunk, Raising.count, outcome,
    overflows, committed, afterTitleError, afterHeaderError, titleCost,
    headerCost, isNewDocument, isNewHeader, groupFor, documentFor,
    f_normalizedHeader, toChunk, addTokens, counted, bind, get, put, ret,
    raise, lift_key; cbn.
  destruct (countTokens c) as [nc|] eqn:Hc; cbn; [|reflexivity].
  destruct (Z.of_nat (nc + tc) >? mx)%Z; cbn; [reflexivity|].
  rewrite (dict_contains_get id docs).
  destruct (dict_get id docs) as [doc|] eqn:Hdoc; cbn.
  - rewrite Hdoc; cbn.
    rewrite (dict_contains_get (normalizeHeader hd) (headers doc)).
    destruct (dict_get (normalizeHeader hd) (headers doc)) as [grp|] eqn:Hgrp; cbn.
    + rewrite Hdoc; cbn. rewrite Hgrp; cbn. rewrite ?Hc; cbn.
      rewrite !Nat.add_0_r. reflexivity.
    + destruct (countTokens (normalizeHeader hd)) as [nh|] eqn:Hh; cbn.
      * rewrite !dict_get_set_same; cbn. rewrite dict_get_set_same; cbn.
        rewrite ?Hc; cbn.
        rewrite !dict_set_set. unfold with_headers; cbn.
        rewrite ?dict_set_set, Nat.add_0_r. reflexivity.
      * rewrite Nat.add_0_r. reflexivity.
  - destruct (countTokens title) as [nt|] eqn:Ht; cbn; [|reflexivity].
    rewrite !dict_get_set_same; cbn.
    destruct (countTokens (normalizeHeader hd)) as [nh|] eqn:Hh; cbn.
    + rewrite ?dict_get_set_same; cbn.
      rewrite String.eqb_refl; cbn. rewrite ?String.eqb_refl; cbn.
      rewrite ?Hc; cbn. rewrite ?dict_set_set. reflexivity.
    + rewrite ?dict_set_set. reflexivity.
Qed.

Lemma overflows_counted (self : DocumentStringBuilder) (f : Fragment) (n : nat) :
  countTokens (f_content f) = Some n ->
  overflows (counted countTokens) self f = true
  <-> (Z.of_nat (tokenCount self + n) > maxTokens self)%Z.
Proof.
  intros Hn. rewrite overflows_spec. unfold counted. rewrite Hn. reflexivity.
Qed.

(** C1, as the code has it: [addChunk] raises [OverflowError] exactly when
    the tokenizer counts the content and the token count so far plus the
    count of the content alone exceeds [maxTokens]; the counts of a
    first-seen title and header take no part in the test.  It returns
    normally exactly when the content is counted, that sum does not exceed
    [maxTokens], and the tokenizer also counts the title if the document is
    new and the normalized header if it is new for the document (where it
    does not, [countTokens] raises [ValueError]).  When it returns normally
    the token count has grown by the count of the content, plus that of the
    title if the document is new, plus that of the normalized header if it
    is new for the document. *)
Theorem addChunk_overflow_iff_content_over_budget
    (self : DocumentStringBuilder) (f : Fragment) :
  (fst (Raising.addFragment countTokens f self) = Raise OverflowError
   <-> exists n,
         countTokens (f_content f) = Some n
         /\ (Z.of_nat (tokenCount self + n) > maxTokens self)%Z)
  /\ (fst (Raising.addFragment countTokens f self) = Ok tt
      <-> exists n,
            countTokens (f_content f) = Some n
            /\ (Z.of_nat (tokenCount self + n) <= maxTokens self)%Z
            /\ (isNewDocument self f = true ->
                countTokens (f_documentTitle f) <> None)
            /\ (isNewHeader self f = true ->
                countTokens (f_normalizedHeader f) <> None))
  /\ (fst (Raising.addFragment countTokens f self) = Ok tt ->
      tokenCount (snd (Raising.addFragment countTokens f self))
      = tokenCount self + incrementalCost (counted countTokens) self f).
Proof.
  rewrite raising_addFragment_unfold. unfold outcome.
  destruct (countTokens (f_content f)) as [n|] eqn:Hn.
  2:{ repeat split; try discriminate; intros [k [Hk _]]; discriminate. }
  pose proof (overflows_counted self f n Hn) as Hov.
  destruct (overflows (counted countTokens) self f).
  { assert (Hgt : (Z.of_nat (tokenCount self + n) > maxTokens self)%Z)
      by (apply Hov; reflexivity).
    repeat split; try discriminate.
    - intros _. exists n. split; [reflexivity | exact Hgt].
    - intros [k [[= <-] [Hle _]]]. lia. }
  assert (Hle : (Z.of_nat (tokenCount self + n) <= maxTokens self)%Z).
  { destruct (Z.le_gt_cases (Z.of_nat (tokenCount self + n)) (maxTokens self))
      as [H|H]; [exact H|].
    assert (Hf : false = true) by (apply Hov; lia). discriminate. }
  destruct (isNewDocument self f) eqn:Hnd;
    destruct (countTokens (f_documentTitle f)) as [nt|] eqn:Ht;
    destruct (isNewHeader self f) eqn:Hnh;
    destruct (countTokens (f_normalizedHeader f)) as [nh|] eqn:Hh; simpl;
    repeat split;
    try discriminate;
    try (intros [k [[= <-] Hk]]; lia);
    try (intros _; exists n; repeat split; try assumption; try reflexivity;
         try discriminate; intros; discriminate);
    try (intros [k [_ [_ [H1 H2]]]]; exfalso;
         first [apply H1; reflexivity | apply H2; reflexivity]);
    try (intros _; apply tokenCount_committed).
Qed.

End RaisingFacts.

Lemma mapR_combine_snd {A B : Type} (f : A -> result B) (l : list A) (ys : list B) :
  mapR f l = Ok ys -> map snd (combine ys l) = l.
Proof.
  revert ys. induction l as [|x l IH]; intros ys; simpl.
  - intros [= <-]. reflexivity.
  - destruct (f x) as [y|e]; simpl; [|discriminate].
    destruct (mapR f l) as [zs|e]; simpl; [|discriminate].
    intros [= <-]. simpl. now rewrite (IH zs eq_refl).
Qed.

(** What [sorted] with a key that may raise returns, when it returns, is
    its input in another order. *)
Lemma sortedR_perm {A : Type} (key : A -> result Z) (l hs : list A) :
  sortedR key l = Ok hs -> Permutation hs l.
Proof.
  unfold sortedR. destruct (mapR key l) as [ks|e] eqn:Hk; simpl; [|discriminate].
  intros [= <-].
  rewrite <- (mapR_combine_snd key l ks Hk) at 2.
  apply Permutation_map, sorted_perm.
Qed.

Lemma mapR_In_l {A B : Type} (f : A -> result B) (l : list A) (ys : list B) (a : A) :
  mapR f l = Ok ys -> In a l -> exists y, f a = Ok y /\ In y ys.
Proof.
  revert ys. induction l as [|x l IH]; intros ys; simpl; [tauto|].
  destruct (f x) as [z|e] eqn:Hx; simpl; [|discriminate].
  destruct (mapR f l) as [zs|e] eqn:Hl; simpl; [|discriminate].
  intros [= <-] [<-|Ha].
  - exists z. split; [exact Hx | now left].
  - destruct (IH zs eq_refl Ha) as [y [Hy Hin]]. exists y. split; [exact Hy | now right].
Qed.

(** Whatever the state of the builder, when [__str__] gets to the end every
    content stored under a header is among its lines at least as often as
    it is stored. *)
Lemma count_occ_lines_any (upper : string -> string)
    (self : DocumentStringBuilder) (ls : list string) (id h s : string) :
  lines upper self = Ok ls ->
  count_occ string_dec (map content (chunksOf self id h)) s
  <= count_occ string_dec ls s.
Proof.
  unfold lines.
  destruct (mapR (fun d => documentLines upper (fst d) (snd d))
              (sortedDocuments self)) as [blocks|e] eqn:Hb; simpl; [|discriminate].
  intros [= <-]. unfold chunksOf.
  destruct (dict_get id (documents self)) as [doc|] eqn:Hd; [|simpl; lia].
  destruct (dict_get h (headers doc)) as [grp|] eqn:Hg; [|simpl; lia].
  apply dict_get_In in Hd. apply dict_get_In in Hg.
  assert (Hd' : In (id, doc) (sortedDocuments self)).
  { unfold sortedDocuments.
    apply (Permutation_in _ (Permutation_sym (sorted_perm _ _)) Hd). }
  destruct (mapR_In_l _ _ _ _ Hb Hd') as [block [Hblock Hin]]. simpl in Hblock.
  etransitivity; [|exact (count_occ_concat_In s block blocks Hin)].
  unfold documentLines in Hblock.
  destruct (sortedHeaders doc) as [hs|e] eqn:Hs; simpl in Hblock; [|discriminate].
  injection Hblock as <-.
  etransitivity; [|apply count_occ_cons_le]. rewrite count_occ_app.
  assert (Hin' : In (headerLines grp) (map (fun e => headerLines (snd e)) hs)).
  { apply (in_map (fun e => headerLines (snd e)) _ (h, grp)).
    apply (Permutation_in _ (Permutation_sym (sortedR_perm _ _ _ Hs)) Hg). }
  pose proof (count_occ_concat_In s _ _ Hin') as H1.
  pose proof (count_occ_headerLines s grp) as H2. lia.
Qed.

Section RaisingRuns.

Variable countTokens : string -> option nat.
Variable upper : string -> string.

Lemma raising_accepted (self self' : DocumentStringBuilder) (f : Fragment) :
  Raising.addFragment countTokens f self = (Ok tt, self') ->
  self' = committed (counted countTokens) self f
  /\ overflows (counted countTokens) self f = false.
Proof.
  rewrite raising_addFragment_unfold. unfold outcome.
  destruct (countTokens (f_content f)); [|discriminate].
  destruct (overflows (counted countTokens) self f); [discriminate|].
  destruct (isNewDocument self f), (countTokens (f_documentTitle f)),
    (isNewHeader self f), (countTokens (f_normalizedHeader f));
    intros [= <-] || discriminate; auto.
Qed.

Lemma chunksOf_afterTitleError (self : DocumentStringBuilder) (f : Fragment)
    (id h : string) :
  isNewDocument self f = true ->
  chunksOf (afterTitleError self f) id h = chunksOf self id h.
Proof.
  unfold isNewDocument. rewrite dict_contains_get. intros Hnew.
  unfold chunksOf, afterTitleError; simpl. rewrite dict_get_set.
  destruct (String.eqb_spec id (f_documentId f)) as [->|Hne]; [|reflexivity].
  destruct (dict_get (f_documentId f) (documents self)); [discriminate|].
  reflexivity.
Qed.

Lemma chunksOf_afterHeaderError (self : DocumentStringBuilder) (f : Fragment)
    (id h : string) :
  isNewHeader self f = true ->
  chunksOf (afterHeaderError countTokens self f) id h = chunksOf self id h.
Proof.
  unfold isNewHeader. intros Hnew.
  unfold chunksOf, afterHeaderError, documentFor; simpl. rewrite dict_get_set.
  destruct (String.eqb_spec id (f_documentId f)) as [->|Hne]; [|reflexivity].
  simpl. rewrite dict_get_set.
  destruct (dict_get (f_documentId f) (documents self)) as [doc|]; simpl.
  - destruct (String.eqb_spec h (f_normalizedHeader f)) as [->|Hh];
      [|reflexivity].
    rewrite dict_contains_get in Hnew.
    destruct (dict_get (f_normalizedHeader f) (headers doc));
      [discriminate | reflexivity].
  - destruct (String.eqb h (f_normalizedHeader f)); reflexivity.
Qed.

(** A call stores a chunk only when it returns normally. *)
Lemma raising_chunksOf (self self' : DocumentStringBuilder) (f : Fragment)
    (r : result unit) (id h : string) :
  Raising.addFragment countTokens f self = (r, self') ->
  chunksOf self' id h
  = chunksOf self id h
    ++ match r with
       | Ok _ => if belongs id h f then [toChunk f] else []
       | Raise _ => []
       end.
Proof.
  rewrite raising_addFragment_unfold. unfold outcome.
  destruct (countTokens (f_content f));
    [|intros [= <- <-]; now rewrite app_nil_r].
  destruct (overflows (counted countTokens) self f);
    [intros [= <- <-]; now rewrite app_nil_r|].
  destruct (isNewDocument self f) eqn:Hnd;
    destruct (countTokens (f_documentTitle f));
    destruct (isNewHeader self f) eqn:Hnh;
    destruct (countTokens (f_normalizedHeader f));
    intros [= <- <-]; rewrite ?app_nil_r;
    first [ apply chunksOf_committed
          | now apply chunksOf_afterTitleError
          | now apply chunksOf_afterHeaderError ].
Qed.

Lemma raising_run_chunksOf (fs : list Fragment)
    (self final : DocumentStringBuilder) (accepted : list Fragment)
    (id h : string) :
  Raising.addChunks countTokens fs self = (final, accepted) ->
  chunksOf final id h
  = chunksOf self id h ++ map toChunk (filter (belongs id h) accepted).
Proof.
  revert self final accepted.
  induction fs as [|f fs IH]; intros self final accepted; simpl.
  - intros [= <- <-]. now rewrite app_nil_r.
  - destruct (Raising.addFragment countTokens f self) as [r self'] eqn:Hadd.
    pose proof (raising_chunksOf _ _ _ _ id h Hadd) as Hstep.
    destruct r as [[]|e].
    + destruct (Raising.addChunks countTokens fs self') as [final' acc'] eqn:Hrun.
      intros [= <- <-]. rewrite (IH _ _ _ Hrun), Hstep, <- app_assoc. simpl.
      destruct (belongs id h f); reflexivity.
    + intros Hrun. rewrite (IH _ _ _ Hrun), Hstep, app_nil_r. reflexivity.
Qed.

(** On a fragment whose texts the tokenizer counts, the call is the call
    with the counts as a total function. *)
Lemma raising_countable_agrees (self : DocumentStringBuilder) (f : Fragment) :
  countable countTokens f ->
  Raising.addFragment countTokens f self
  = addFragment (counted countTokens) f self.
Proof.
  intros [Hc [Ht Hh]].
  rewrite raising_addFragment_unfold, addFragment_unfold. unfold outcome.
  destruct (countTokens (f_content f)); [|contradiction].
  destruct (overflows (counted countTokens) self f); [reflexivity|].
  destruct (countTokens (f_documentTitle f)); [|contradiction].
  destruct (countTokens (f_normalizedHeader f)); [|contradiction].
  destruct (isNewDocument self f), (isNewHeader self f); reflexivity.
Qed.

Lemma raising_run_agrees (fs : list Fragment) (self : DocumentStringBuilder) :
  Forall (countable countTokens) fs ->
  Raising.addChunks countTokens fs self
  = addChunks (counted countTokens) fs self.
Proof.
  revert self. induction fs as [|f fs IH]; intros self Hall; [reflexivity|].
  inversion Hall as [|? ? Hf Hfs]; subst. simpl.
  rewrite (raising_countable_agrees self f Hf).
  destruct (addFragment (counted countTokens) f self) as [[[]|e] self'];
    now rewrite (IH _ Hfs).
Qed.

End RaisingRuns.

Section RaisingTheorems.

Variable countTokens : string -> option nat.
Variable upper : string -> string.

Lemma raising_raise_cases (self self' : DocumentStringBuilder) (f : Fragment)
    (e : Exn) :
  Raising.addFragment countTokens f self = (Raise e, self') ->
  (e = OverflowError /\ self' = self)
  \/ (e = ValueError /\ maxTokens self' = maxTokens self
      /\ (countTokens (f_content f) = None -> self' = self)).
Proof.
  rewrite raising_addFragment_unfold. unfold outcome.
  destruct (countTokens (f_content f));
    [|intros [= <- <-]; right; auto].
  destruct (overflows (counted countTokens) self f);
    [intros [= <- <-]; left; auto|].
  destruct (isNewDocument self f), (countTokens (f_documentTitle f)),
    (isNewHeader self f), (countTokens (f_normalizedHeader f));
    intros [= <- <-] || discriminate;
    right; repeat split; discriminate.
Qed.

(** X1: whatever the state of the builder, well formed or not, [addChunk]
    ends in one of three ways: it returns normally; it raises
    [OverflowError] and leaves the state alone; or [countTokens] raises
    [ValueError] on the content, on the title of a new document or on a new
    header.  None of its lookups raises [KeyError].  A call that ends in
    [ValueError] has stored no chunk and has not touched the budget, and it
    leaves the state alone when it is the content that is refused; otherwise
    it may leave the new document and a header entry without chunk
    behind. *)
Theorem addChunk_three_outcomes (self : DocumentStringBuilder) (f : Fragment) :
  (exists self', Raising.addFragment countTokens f self = (Ok tt, self'))
  \/ Raising.addFragment countTokens f self = (Raise OverflowError, self)
  \/ (exists self',
        Raising.addFragment countTokens f self = (Raise ValueError, self')
        /\ maxTokens self' = maxTokens self
        /\ (forall id h, chunksOf self' id h = chunksOf self id h)
        /\ (countTokens (f_content f) = None -> self' = self)
        /\ (countTokens (f_content f) = None
            \/ (isNewDocument self f = true
                /\ countTokens (f_documentTitle f) = None)
            \/ (isNewHeader self f = true
                /\ countTokens (f_normalizedHeader f) = None))).
Proof.
  destruct (Raising.addFragment countTokens f self) as [[[]|e] self'] eqn:Hadd.
  - left. now exists self'.
  - right.
    destruct (raising_raise_cases _ _ _ _ Hadd) as [[-> ->]|[-> [Hm Hc]]];
      [now left|].
    right. exists self'. split; [reflexivity|]. split; [exact Hm|].
    split.
    + intros id h.
      rewrite (raising_chunksOf countTokens _ _ _ _ id h Hadd).
      now rewrite app_nil_r.
    + split; [exact Hc|].
      revert Hadd. rewrite raising_addFragment_unfold. unfold outcome.
      destruct (countTokens (f_content f)); [|now left].
      destruct (overflows (counted countTokens) self f); [discriminate|].
      destruct (isNewDocument self f), (countTokens (f_documentTitle f)),
        (isNewHeader self f), (countTokens (f_normalizedHeader f));
        intros H; try discriminate H; auto.
Qed.

Lemma raising_accepted_consistent (pre : list Fragment)
    (self self' : DocumentStringBuilder) (f : Fragment) :
  consistent pre self ->
  Raising.addFragment countTokens f self = (Ok tt, self') ->
  consistent (pre ++ [f]) self'.
Proof.
  intros Hc Hadd. destruct (raising_accepted countTokens _ _ _ Hadd) as [-> _].
  now apply consistent_committed.
Qed.

(** The loop of [chunksToText]: it takes the fragments up to the first one
    whose call raises, and ends well if that one overflows. *)
Lemma raising_feed_prefix (fs pre : list Fragment) (self : DocumentStringBuilder) :
  consistent pre self ->
  exists acc rest final,
    fs = acc ++ rest
    /\ Raising.addChunks countTokens acc self = (final, acc)
    /\ consistent (pre ++ acc) final
    /\ match rest with
       | [] => Raising.feed countTokens fs self = (Ok tt, final)
       | f :: _ =>
           (fst (Raising.addFragment countTokens f final) = Raise OverflowError
            /\ Raising.feed countTokens fs self = (Ok tt, final))
           \/ (fst (Raising.addFragment countTokens f final) = Raise ValueError
               /\ fst (Raising.feed countTokens fs self) = Raise ValueError)
       end.
Proof.
  revert pre self. induction fs as [|f fs IH]; intros pre self Hc.
  - exists [], [], self.
    split; [reflexivity|]. split; [reflexivity|].
    split; [now rewrite app_nil_r | reflexivity].
  - simpl Raising.feed.
    destruct (Raising.addFragment countTokens f self) as [[[]|e] self'] eqn:Hadd.
    + pose proof (raising_accepted_consistent _ _ _ _ Hc Hadd) as Hc'.
      destruct (IH _ _ Hc') as [acc [rest [final [Hfs [Hrun [Hcf Hrest]]]]]].
      exists (f :: acc), rest, final.
      split; [simpl; now rewrite Hfs|].
      split; [simpl; now rewrite Hadd, Hrun|].
      split; [now rewrite <- app_assoc in Hcf|]. exact Hrest.
    + exists [], (f :: fs), self.
      split; [reflexivity|]. split; [reflexivity|].
      split; [now rewrite app_nil_r|].
      rewrite Hadd. simpl.
      destruct (raising_raise_cases _ _ _ _ Hadd) as [[-> ->]|[-> _]];
        [left | right]; split; reflexivity.
Qed.

(** X12: [chunksToText] adds the fragments in the order given up to the
    first one whose call does not return.  If there is none, or if that
    call raises [OverflowError], it tries no fragment after it (also not
    one that would still fit) and returns what [__str__] makes of the
    builder that holds the fragments before it, which raises nothing.  If
    that call raises [ValueError], because [countTokens] refuses one of the
    texts of the fragment, [chunksToText] raises [ValueError]: it catches
    [OverflowError] only. *)
Theorem chunksToText_outcome (fs : list Fragment) (m : Z) :
  exists acc rest final s,
    fs = acc ++ rest
    /\ Raising.addChunks countTokens acc (emptyBuilder m) = (final, acc)
    /\ str upper final = Ok s
    /\ match rest with
       | [] => Raising.chunksToText countTokens upper fs m = Ok s
       | f :: _ =>
           (fst (Raising.addFragment countTokens f final) = Raise OverflowError
            /\ Raising.chunksToText countTokens upper fs m = Ok s)
           \/ (fst (Raising.addFragment countTokens f final) = Raise ValueError
               /\ Raising.chunksToText countTokens upper fs m = Raise ValueError)
       end.
Proof.
  destruct (raising_feed_prefix fs [] (emptyBuilder m) (consistent_empty m))
    as [acc [rest [final [Hfs [Hrun [Hc Hrest]]]]]].
  simpl in Hc.
  exists acc, rest, final,
    (String.concat newline
       (List.concat (map (documentBlock upper) (documents final)))).
  assert (Hstr : str upper final
                 = Ok (String.concat newline
                         (List.concat (map (documentBlock upper) (documents final))))).
  { unfold str. now rewrite (lines_consistent upper _ _ Hc). }
  split; [exact Hfs|]. split; [exact Hrun|]. split; [exact Hstr|].
  unfold Raising.chunksToText, init. simpl rbind.
  change (mkBuilder m 0 []) with (emptyBuilder m).
  destruct rest as [|f rest].
  - now rewrite Hrest.
  - destruct Hrest as [[Hov Hfeed]|[Hv Hfeed]].
    + left. split; [exact Hov|]. now rewrite Hfeed.
    + right. split; [exact Hv|].
      destruct (Raising.feed countTokens fs (emptyBuilder m)) as [r b].
      simpl in Hfeed. now subst r.
Qed.

(** X10: after any sequence of [addChunk] calls on a fresh builder, calls
    that overflow or that end in [ValueError] included, whenever [__str__]
    gets to the end the content of every accepted fragment is one of the
    lines it joins.  It does get to the end, with no [IndexError] from
    [chunks[0]], when the tokenizer counts the content, the title and the
    header of every fragment of the sequence. *)
Theorem accepted_contents_printed_when_str_returns (m : Z) (fs : list Fragment)
    (final : DocumentStringBuilder) (accepted : list Fragment) :
  Raising.addChunks countTokens fs (emptyBuilder m) = (final, accepted) ->
  (forall ls,
      lines upper final = Ok ls ->
      forall f, In f accepted -> In (f_content f) ls)
  /\ (Forall (countable countTokens) fs ->
      exists ls,
        lines upper final = Ok ls
        /\ str upper final = Ok (String.concat newline ls)).
Proof.
  intros Hrun. split.
  - intros ls Hls f Hf.
    pose proof (count_occ_lines_any upper final ls (f_documentId f)
                  (f_normalizedHeader f) (f_content f) Hls) as Hcount.
    rewrite (raising_run_chunksOf countTokens _ _ _ _ _ _ Hrun) in Hcount.
    simpl in Hcount.
    apply (count_occ_In string_dec).
    assert (Hin : In (f_content f)
                    (map content
                       (map toChunk
                          (filter (belongs (f_documentId f) (f_normalizedHeader f))
                             accepted)))).
    { apply (in_map content _ (toChunk f)), in_map, filter_In.
      split; [exact Hf | apply belongs_own]. }
    apply count_occ_pos_In in Hin. lia.
  - intros Hall. rewrite (raising_run_agrees countTokens fs _ Hall) in Hrun.
    pose proof (addChunks_from_empty _ _ _ _ _ Hrun) as Hc.
    pose proof (lines_consistent upper _ _ Hc) as Hls.
    eexists. split; [exact Hls|]. unfold str. now rewrite Hls.
Qed.

End RaisingTheorems.

Section TwiceInARun.

Variable countTokens : string -> option nat.
Variable upper : string -> string.





End TwiceInARun.

Section RaisingIndexBuilder.

Variable countTokens : string -> option nat.
Variable strip : string -> string.

Lemma raising_paragraphLoop_header (header : option string) (ps : list string)
    (c : string) :
  Forall (fun chunk => ic_header chunk = header)
    (fst (Raising.paragraphLoop countTokens strip header ps c)).
Proof.
  revert c. induction ps as [|p ps IH]; intros c; simpl; [constructor|].
  destruct (countTokens _) as [n|]; [|constructor].
  destruct (Nat.ltb 100 n).
  - specialize (IH EmptyString).
    destruct (Raising.paragraphLoop countTokens strip header ps EmptyString);
      simpl in *.
    now constructor.
  - apply IH.
Qed.

(** X18: every chunk that a section yields carries the heading of the
    section.  A section that [getChunks] gets through yields at least one
    chunk.  A section whose text [countTokens] refuses yields none:
    [getChunks] raises [ValueError] at its first test.  A section of fewer
    than 200 tokens yields its text as one chunk, not stripped. *)
Theorem section_chunks_or_value_error (s : SPSection) :
  Forall (fun chunk => ic_header chunk = heading s)
    (fst (Raising.getChunks countTokens strip [s]))
  /\ (snd (Raising.getChunks countTokens strip [s]) = Ok tt ->
      fst (Raising.getChunks countTokens strip [s]) <> [])
  /\ (countTokens (text s) = None ->
      Raising.getChunks countTokens strip [s] = ([], Raise ValueError))
  /\ (forall n,
        countTokens (text s) = Some n -> n < 200 ->
        Raising.getChunks countTokens strip [s]
        = ([mkIndexChunk (heading s) (text s)], Ok tt)).
Proof.
  unfold Raising.getChunks; simpl.
  destruct (countTokens (text s)) as [n|] eqn:Hn.
  2:{ repeat split; try discriminate; constructor. }
  destruct (Nat.ltb_spec n 200) as [Hlt|Hge].
  - repeat split; try discriminate; repeat constructor.
  - pose proof (raising_paragraphLoop_header (heading s)
                  (splitNewline (text s)) EmptyString) as Hh.
    destruct (Raising.paragraphLoop countTokens strip (heading s)
                (splitNewline (text s)) EmptyString) as [ys [carried|e]];
      simpl in *.
    + repeat split.
      * apply Forall_app. split; [exact Hh | repeat constructor].
      * intros _ E. apply app_eq_nil in E. destruct E; discriminate.
      * discriminate.
      * intros k [= <-] Hk. lia.
    + repeat split; try discriminate; try exact Hh.
      intros k [= <-] Hk. lia.
Qed.

End RaisingIndexBuilder.

(** ** Closed examples with the end-of-text marker *)

(** A fragment whose header holds the marker: the call ends in
    [ValueError] with the title counted and the document and a header entry
    without chunk stored, and [__str__] then raises [IndexError]. *)
Lemma marker_in_header_leaves_empty_group :
  Raising.addFragment charTokensRaising markerInHeader (emptyBuilder 10)
  = (Raise ValueError,
     mkBuilder 10 1
       [("1", mkDocument "t" 0 [(endOfText, mkHeaderGroup endOfText [])])])
  /\ lines asciiUpper
       (snd (Raising.addFragment charTokensRaising markerInHeader (emptyBuilder 10)))
     = Raise IndexError
  /\ Raising.chunksToText charTokensRaising asciiUpper [markerInHeader] 10
     = Raise ValueError.
Proof. vm_compute. repeat split. Qed.


Lemma accepted_contents_printed_when_str_returns_witness :
  (forall ls,
      lines asciiUpper
        (fst (Raising.addChunks charTokensRaising interleaved (emptyBuilder 100)))
      = Ok ls ->
      forall f, In f interleaved -> In (f_content f) ls)
  /\ (Forall (countable charTokensRaising) interleaved ->
      exists ls,
        lines asciiUpper
          (fst (Raising.addChunks charTokensRaising interleaved (emptyBuilder 100)))
        = Ok ls
        /\ str asciiUpper
             (fst (Raising.addChunks charTokensRaising interleaved (emptyBuilder 100)))
           = Ok (String.concat newline ls)).
Proof.
  apply (accepted_contents_printed_when_str_returns charTokensRaising asciiUpper
           100 interleaved).
  vm_compute. reflexivity.
Defined.

(** A section whose text is the marker yields nothing and raises. *)
Lemma marker_section_raises :
  Raising.getChunks charTokensRaising asciiStrip [markerSection]
  = ([], Raise ValueError).
Proof. vm_compute. reflexivity. Qed.
